(** * piret: scripts/marshal_extract.py

    A shallow embedding of the marshal code-object extractor and the
    properties of its offset scan.

    The script reads a file, tries [marshal.loads] on [raw[offset:]] for
    [offset] in [range(0, min(32, len(raw)))], and re-serialises the first
    object that loads to the output path.  [marshal], [open], [repr] and the
    operating system are not part of the repository: they are the fields of
    the record [runtime].  Everything the script itself does (the bound of
    the scan, the order of the calls, which exceptions are caught where, what
    is printed and what is returned) is modelled as written.  [print] is
    taken to succeed. *)

From Stdlib Require Import String Ascii List Sorted ZArith Lia.
From Stdlib.Strings Require Import Byte.
From Stdlib Require Import DecimalString DecimalNat.
From stdpp Require Import gmap strings list list_numbers.

Import ListNotations.
Local Open Scope string_scope.

(** ** Python exceptions

    Only subclasses of [Exception] are modelled: they are what [open],
    [read], [marshal.loads], [marshal.dump] and [write] raise.  A class
    stands for itself and its subclasses, as [except] matches them
    ([FileNotFoundError] and [PermissionError] are [OSError]s). *)

Inductive exc_class :=
| ValueError
| EOFError
| TypeError
| OSError
| MemoryError
| SystemError
| OtherException.

Record exc := Exc { exc_type : exc_class; exc_str : string }.

(** [except (ValueError, EOFError, TypeError)] *)
Definition recoverable (e : exc) : bool :=
  match exc_type e with
  | ValueError | EOFError | TypeError => true
  | OSError | MemoryError | SystemError | OtherException => false
  end.

(** [except Exception] *)
Definition any_exception (e : exc) : bool := true.

Inductive result (A : Type) :=
| Ok (a : A)
| Raise (e : exc).
Arguments Ok {A} a.
Arguments Raise {A} e.

(** ** The process state: files, the two output streams, and a record of the
    calls made to the outside world *)

Inductive event :=
| EvOpenRead (path : string)
| EvLoads (offset : nat)
| EvOpenWrite (path : string) (offset : nat)
| EvDump (path : string) (offset : nat) (data : list byte).

Record state := State {
  fs : gmap string (list byte);
  stdout : list string;
  stderr : list string;
  log : list event
}.

Definition initial (files : gmap string (list byte)) : state :=
  State files [] [] [].

Definition set_file (path : string) (data : list byte) (s : state) : state :=
  State (<[path := data]> (fs s)) (stdout s) (stderr s) (log s).

Definition add_event (ev : event) (s : state) : state :=
  State (fs s) (stdout s) (stderr s) (log s ++ [ev]).

Definition tried (l : list event) : list nat :=
  flat_map (fun ev => match ev with EvLoads o => [o] | _ => [] end) l.

Definition write_opens (l : list event) : list nat :=
  flat_map (fun ev => match ev with EvOpenWrite _ o => [o] | _ => [] end) l.

Definition dumps_done (l : list event) : list (nat * list byte) :=
  flat_map (fun ev => match ev with EvDump _ o d => [(o, d)] | _ => [] end) l.

(** ** A state and exception monad for the statements of the script *)

Module Py.

Definition M (A : Type) : Type := state -> result A * state.

Definition ret {A} (a : A) : M A := fun s => (Ok a, s).

Definition raise {A} (e : exc) : M A := fun s => (Raise e, s).

Definition bind {A B} (m : M A) (k : A -> M B) : M B :=
  fun s =>
    match m s with
    | (Ok a, s') => k a s'
    | (Raise e, s') => (Raise e, s')
    end.

(** [try: body  except <catches> as e: handler e] *)
Definition try_except {A} (body : M A) (catches : exc -> bool)
    (handler : exc -> M A) : M A :=
  fun s =>
    match body s with
    | (Ok a, s') => (Ok a, s')
    | (Raise e, s') =>
        if catches e then handler e s' else (Raise e, s')
    end.

Definition modify (f : state -> state) : M unit := fun s => (Ok tt, f s).

Definition lift {A} (r : result A) : M A := fun s => (r, s).

End Py.

Declare Scope py_scope.
Delimit Scope py_scope with py.
Notation "x <- m ;; k" := (Py.bind m (fun x => k))
  (at level 100, m at next level, right associativity) : py_scope.
Notation "m ;;; k" := (Py.bind m (fun _ => k))
  (at level 100, right associativity) : py_scope.

(** [print(line)] and [print(line, file=sys.stderr)] *)
Definition say (line : string) (s : state) : state :=
  State (fs s) (stdout s ++ [line]) (stderr s) (log s).

Definition say_err (line : string) (s : state) : state :=
  State (fs s) (stdout s) (stderr s ++ [line]) (log s).

Definition print (line : string) : Py.M unit := Py.modify (say line).

Definition print_stderr (line : string) : Py.M unit :=
  Py.modify (say_err line).

(** [f'{offset}'] for a non-negative [int] *)
Definition str_of_nat (n : nat) : string :=
  NilEmpty.string_of_uint (Nat.to_uint n).

Definition msg_extracted (offset : nat) : string :=
  "[+] Code object extracted (header_offset=" ++ str_of_nat offset ++ " bytes)".

Definition msg_failed : string := "[-] Failed to extract valid code object".

Definition msg_error (e : exc) : string := "[-] Error: " ++ exc_str e.

Definition msg_usage : string :=
  "Usage: marshal_extract.py <input.pyc> <output.marshaled>".

(** [range(0, n)] *)
Definition range0 (n : nat) : list nat := seq 0 n.

(** [for offset in offsets: body], where the body either returns from the
    enclosing function ([Some v]) or falls through to the next iteration
    ([None], also what [continue] does). *)
Fixpoint for_each (offsets : list nat) (body : nat -> Py.M (option Z))
    : Py.M (option Z) :=
  match offsets with
  | [] => Py.ret None
  | offset :: rest =>
      (r <- body offset ;;
       match r with
       | Some v => Py.ret (Some v)
       | None => for_each rest body
       end)%py
  end.

(** ** The host runtime

    [marshal_loads] is [marshal.loads]; [marshal_dumps] is the serialisation
    half of [marshal.dump] (the bytes it builds before it calls [write]);
    [py_repr] is [repr] on a path.  The three fault tables say which paths
    the operating system refuses: [read_fault] for [open(p, 'rb')] and
    [read], [create_fault] for [open(p, 'wb')], [write_fault] for [write]
    and the flush on close, which fail with [OSError] and leave the file with
    the bytes the table gives. *)

Record runtime := Runtime {
  obj : Type;
  marshal_loads : list byte -> result obj;
  marshal_dumps : obj -> result (list byte);
  py_repr : string -> string;
  read_fault : string -> option exc;
  create_fault : string -> option exc;
  write_fault : string -> list byte -> option (string * list byte)
}.

Section Extractor.

Variable rt : runtime.

Definition file_not_found (path : string) : exc :=
  Exc OSError ("[Errno 2] No such file or directory: " ++ py_repr rt path).

(** [with open(path, 'rb') as f: raw = f.read()] *)
Definition read_binary (path : string) : Py.M (list byte) :=
  (Py.modify (add_event (EvOpenRead path)) ;;;
   match read_fault rt path with
   | Some e => Py.raise e
   | None =>
       fun s =>
         match fs s !! path with
         | Some raw => (Ok raw, s)
         | None => (Raise (file_not_found path), s)
         end
   end)%py.

(** [marshal.loads(data)], called in the iteration for [offset] *)
Definition loads (offset : nat) (data : list byte) : Py.M (obj rt) :=
  (Py.modify (add_event (EvLoads offset)) ;;;
   Py.lift (marshal_loads rt data))%py.

(** [open(path, 'wb')]: creates the file, or truncates it *)
Definition open_wb (path : string) (offset : nat) : Py.M unit :=
  (Py.modify (add_event (EvOpenWrite path offset)) ;;;
   match create_fault rt path with
   | Some e => Py.raise e
   | None => Py.modify (set_file path [])
   end)%py.

(** [marshal.dump(code, out)] followed by the close of [out] at the end of
    the [with] block *)
Definition dump (code : obj rt) (path : string) (offset : nat) : Py.M unit :=
  (data <- Py.lift (marshal_dumps rt code) ;;
   match write_fault rt path data with
   | Some (reason, partial) =>
       (Py.modify (set_file path partial) ;;;
        Py.raise (Exc OSError reason))
   | None =>
       (Py.modify (set_file path data) ;;;
        Py.modify (add_event (EvDump path offset data)))
   end)%py.

(** The body of the inner [try] for one offset *)
Definition attempt (raw : list byte) (output_path : string) (offset : nat)
    : Py.M (option Z) :=
  (code <- loads offset (drop offset raw) ;;
   open_wb output_path offset ;;;
   dump code output_path offset ;;;
   print (msg_extracted offset) ;;;
   Py.ret (Some 0%Z))%py.

(** The inner [try ... except (ValueError, EOFError, TypeError): continue] *)
Definition iteration (raw : list byte) (output_path : string) (offset : nat)
    : Py.M (option Z) :=
  Py.try_except (attempt raw output_path offset)
    recoverable (fun _ => Py.ret None).

Definition candidate_offsets (raw : list byte) : list nat :=
  range0 (Nat.min 32 (length raw)).

Definition scan (raw : list byte) (output_path : string) : Py.M (option Z) :=
  for_each (candidate_offsets raw) (iteration raw output_path).

Definition extract_code_object (pyc_path output_path : string) : Py.M Z :=
  Py.try_except
    (raw <- read_binary pyc_path ;;
     r <- scan raw output_path ;;
     match r with
     | Some v => Py.ret v
     | None => (print_stderr msg_failed ;;; Py.ret 1%Z)
     end)%py
    any_exception
    (fun e => print_stderr (msg_error e) ;;; Py.ret 1%Z)%py.

(** [if __name__ == '__main__': ...]; the result is the exit status *)
Definition main (argv : list string) : Py.M Z :=
  match argv with
  | [_; input; output] => extract_code_object input output
  | _ => (print_stderr msg_usage ;;; Py.ret 1%Z)%py
  end.

End Extractor.

(** ** How one iteration and a whole scan can end

    These relations restate [attempt] and [for_each] case by case; the
    lemmas [attempt_cases] and [scan_cases] below show that the functions
    always land in one of the cases. *)

Section Outcomes.

Variable rt : runtime.
Variable raw : list byte.
Variable output_path : string.

Definition after_loads (k : nat) (s : state) : state :=
  add_event (EvLoads k) s.

Definition after_open (k : nat) (s : state) : state :=
  add_event (EvOpenWrite output_path k) (after_loads k s).

Definition after_truncate (k : nat) (s : state) : state :=
  set_file output_path [] (after_open k s).

Definition after_dump (k : nat) (data : list byte) (s : state) : state :=
  add_event (EvDump output_path k data)
    (set_file output_path data (after_truncate k s)).

Definition after_print (k : nat) (data : list byte) (s : state) : state :=
  say (msg_extracted k) (after_dump k data s).

(** The five ways the body of the inner [try] can end. *)
Inductive attempt_outcome (k : nat) (s : state)
    : result (option Z) -> state -> Prop :=
| LoadsRaises e :
    marshal_loads rt (drop k raw) = Raise e ->
    attempt_outcome k s (Raise e) (after_loads k s)
| OpenRaises code e :
    marshal_loads rt (drop k raw) = Ok code ->
    create_fault rt output_path = Some e ->
    attempt_outcome k s (Raise e) (after_open k s)
| DumpsRaises code e :
    marshal_loads rt (drop k raw) = Ok code ->
    create_fault rt output_path = None ->
    marshal_dumps rt code = Raise e ->
    attempt_outcome k s (Raise e) (after_truncate k s)
| WriteRaises code data reason partial :
    marshal_loads rt (drop k raw) = Ok code ->
    create_fault rt output_path = None ->
    marshal_dumps rt code = Ok data ->
    write_fault rt output_path data = Some (reason, partial) ->
    attempt_outcome k s (Raise (Exc OSError reason))
      (set_file output_path partial (after_truncate k s))
| Extracted code data :
    marshal_loads rt (drop k raw) = Ok code ->
    create_fault rt output_path = None ->
    marshal_dumps rt code = Ok data ->
    write_fault rt output_path data = None ->
    attempt_outcome k s (Ok (Some 0%Z)) (after_print k data s).

(** The loop: skip on a recoverable exception, stop on any other, return on
    the first extraction, fall through when the offsets run out. *)
Inductive scan_outcome
    : list nat -> state -> result (option Z) -> state -> Prop :=
| ScanExhausted s :
    scan_outcome [] s (Ok None) s
| ScanSkip k rest s e s1 r s' :
    attempt_outcome k s (Raise e) s1 ->
    recoverable e = true ->
    scan_outcome rest s1 r s' ->
    scan_outcome (k :: rest) s r s'
| ScanAbort k rest s e s1 :
    attempt_outcome k s (Raise e) s1 ->
    recoverable e = false ->
    scan_outcome (k :: rest) s (Raise e) s1
| ScanReturn k rest s s1 :
    attempt_outcome k s (Ok (Some 0%Z)) s1 ->
    scan_outcome (k :: rest) s (Ok (Some 0%Z)) s1.

End Outcomes.

(** ** Vocabulary of the specification *)

(** [raw[k:]] deserialises. *)
Definition loads_ok (rt : runtime) (raw : list byte) (k : nat) : bool :=
  match marshal_loads rt (drop k raw) with
  | Ok _ => true
  | Raise _ => false
  end.

(** [raw[k:]] fails to deserialise with one of the three exceptions the
    inner [except] names. *)
Definition loads_skips (rt : runtime) (raw : list byte) (k : nat) : bool :=
  match marshal_loads rt (drop k raw) with
  | Ok _ => false
  | Raise e => recoverable e
  end.

(** [k] is the smallest offset in [[0, min(32, len(raw)))] at which
    [raw[k:]] deserialises. *)
Definition first_valid_offset (rt : runtime) (raw : list byte) (k : nat)
    : bool :=
  (k <? Nat.min 32 (length raw))%nat && loads_ok rt raw k &&
  forallb (fun j => negb (loads_ok rt raw j)) (seq 0 k).

(** No offset in [[0, min(32, len(raw)))] deserialises. *)
Definition no_valid_offset (rt : runtime) (raw : list byte) : bool :=
  forallb (fun j => negb (loads_ok rt raw j)) (candidate_offsets raw).

(** [raw[k:]] deserialises, but serialising the object raises one of the
    three exceptions the inner [except] names. *)
Definition dump_skips (rt : runtime) (raw : list byte) (k : nat) : bool :=
  match marshal_loads rt (drop k raw) with
  | Ok code =>
      match marshal_dumps rt code with
      | Ok _ => false
      | Raise e => recoverable e
      end
  | Raise _ => false
  end.

(** The body of the inner [try] at offset [k] runs to its [return 0]:
    [raw[k:]] deserialises, the output opens, and the object is serialised
    and written. *)
Definition attempt_succeeds (rt : runtime) (raw : list byte)
    (output_path : string) (k : nat) : bool :=
  match marshal_loads rt (drop k raw) with
  | Raise _ => false
  | Ok code =>
      match create_fault rt output_path with
      | Some _ => false
      | None =>
          match marshal_dumps rt code with
          | Raise _ => false
          | Ok data =>
              match write_fault rt output_path data with
              | Some _ => false
              | None => true
              end
          end
      end
  end.

(** The body of the inner [try] at offset [k] raises an exception that the
    inner [except] catches, at the load, at the open or at the
    serialisation (a failing [write] raises [OSError], which it does not
    catch). *)
Definition attempt_skips (rt : runtime) (raw : list byte)
    (output_path : string) (k : nat) : bool :=
  match marshal_loads rt (drop k raw) with
  | Raise e => recoverable e
  | Ok code =>
      match create_fault rt output_path with
      | Some e => recoverable e
      | None =>
          match marshal_dumps rt code with
          | Raise e => recoverable e
          | Ok _ => false
          end
      end
  end.

Definition add_events (evs : list event) (s : state) : state :=
  State (fs s) (stdout s) (stderr s) (log s ++ evs).

(** ** Effects that do not depend on the state they start from *)

Record delta := Delta {
  d_file : option (list byte);
  d_out : list string;
  d_err : list string;
  d_log : list event
}.

Definition apply_delta (output_path : string) (d : delta) (s : state)
    : state :=
  State (match d_file d with
         | Some data => <[output_path := data]> (fs s)
         | None => fs s
         end)
        (stdout s ++ d_out d) (stderr s ++ d_err d) (log s ++ d_log d).

(** The effect of one delta followed by another. *)
Definition delta_seq (d1 d2 : delta) : delta :=
  Delta (match d_file d2 with Some data => Some data | None => d_file d1 end)
        (d_out d1 ++ d_out d2) (d_err d1 ++ d_err d2) (d_log d1 ++ d_log d2).

Definition delta_nil : delta := Delta None [] [] [].

Definition uniform {A} (output_path : string) (m : Py.M A) : Prop :=
  exists r d, forall s, m s = (r, apply_delta output_path d s).

(** ** A concrete runtime

    A fragment of the marshal format of CPython 3.11 and a file system
    with a few refusing paths, used to run the script on concrete inputs.
    The fragment covers the singletons, the null object, code objects whose
    fields are in the fragment (none of them can be a [bytes] object, so the
    interpreter rejects every such code object) and the bytes that are no
    type code; on the other type codes it gives no answer. *)

Module Toy.

Inductive value :=
| VNone
| VFalse
| VTrue
| VStopIteration
| VEllipsis.

Inductive type_code :=
| TValue (v : value)
| TNull
| TCode
| TUndefined
| TUnmodelled.

(** The type code is the byte without its top bit, the reference flag. *)
Definition type_code_of (b : byte) : type_code :=
  match N.land (Byte.to_N b) 127 with
  | 78 => TValue VNone
  | 70 => TValue VFalse
  | 84 => TValue VTrue
  | 83 => TValue VStopIteration
  | 46 => TValue VEllipsis
  | 48 => TNull
  | 99 => TCode
  | 105 | 73 | 102 | 103 | 120 | 121 | 108 | 115 | 116 | 117 | 114
  | 40 | 41 | 91 | 123 | 60 | 62 | 97 | 65 | 122 | 90 => TUnmodelled
  | _ => TUndefined
  end%N.

Definition eof_object : exc := Exc EOFError "EOF read where object expected".
Definition eof_short : exc := Exc EOFError "marshal data too short".
Definition null_object : exc :=
  Exc TypeError "NULL object in marshal data for object".
Definition unknown_code : exc :=
  Exc ValueError "bad marshal data (unknown type code)".

(** What the validation of a code object raises; the file and the line in
    the message are those of CPython 3.11.2. *)
Definition bad_internal_call : exc :=
  Exc SystemError
    "../Objects/codeobject.c:250: bad argument to internal function".

Inductive parse :=
| Parsed (v : value) (rest : list byte)
| Failed (e : exc)
| Unmodelled.

(** [r_long]: four bytes; their value plays no part in the fragment. *)
Definition r_long (data : list byte) : option (list byte) :=
  match data with
  | _ :: _ :: _ :: _ :: rest => Some rest
  | _ => None
  end.

Fixpoint r_longs (n : nat) (data : list byte) : option (list byte) :=
  match n with
  | 0 => Some data
  | S n =>
      match r_long data with
      | Some rest => r_longs n rest
      | None => None
      end
  end.

(** [n] objects in a row, each read by [r]; the value of the last is kept
    only to say that all were read. *)
Fixpoint r_objects (r : list byte -> parse) (n : nat) (data : list byte)
    : parse :=
  match n with
  | 0 => Parsed VNone data
  | S n =>
      match r data with
      | Parsed _ rest => r_objects r n rest
      | Failed e => Failed e
      | Unmodelled => Unmodelled
      end
  end.

(** [r_object], reading at most [depth] levels of nesting.  A code object
    is five integers, eight objects, an integer and two objects; once they
    are read the interpreter validates them. *)
Fixpoint r_object (depth : nat) (data : list byte) : parse :=
  match depth with
  | 0 => Unmodelled
  | S depth =>
      match data with
      | [] => Failed eof_object
      | b :: rest =>
          match type_code_of b with
          | TValue v => Parsed v rest
          | TNull => Failed null_object
          | TUndefined => Failed unknown_code
          | TUnmodelled => Unmodelled
          | TCode =>
              match r_longs 5 rest with
              | None => Failed eof_short
              | Some rest =>
                  match r_objects (r_object depth) 8 rest with
                  | Parsed _ rest =>
                      match r_long rest with
                      | None => Failed eof_short
                      | Some rest =>
                          match r_objects (r_object depth) 2 rest with
                          | Parsed _ _ => Failed bad_internal_call
                          | Failed e => Failed e
                          | Unmodelled => Unmodelled
                          end
                      end
                  | Failed e => Failed e
                  | Unmodelled => Unmodelled
                  end
              end
          end
      end
  end.

(** [marshal.loads] refuses objects nested deeper than 2000; the fragment
    stops at that depth. *)
Definition parse_all (data : list byte) : parse :=
  r_object (Nat.min 2000 (S (length data))) data.

(** [data] is in the fragment: [toy_loads] answers as CPython does. *)
Definition modelled (data : list byte) : bool :=
  match parse_all data with
  | Unmodelled => false
  | _ => true
  end.

Definition toy_loads (data : list byte) : result value :=
  match parse_all data with
  | Parsed v _ => Ok v
  | Failed e => Raise e
  | Unmodelled =>
      Raise (Exc OtherException "type code outside the modelled fragment")
  end.

Definition toy_dumps (v : value) : result (list byte) :=
  match v with
  | VNone => Ok [x4e]
  | VFalse => Ok [x46]
  | VTrue => Ok [x54]
  | VStopIteration => Ok [x53]
  | VEllipsis => Ok [x2e]
  end.

(** A [dump] that refuses [Ellipsis]: a stand-in for an object that
    [marshal.loads] returns and [marshal.dump] rejects with [ValueError]
    (in CPython, a set that holds a tuple nested deeper than [dump] accepts,
    which takes thousands of bytes to write down). *)
Definition picky_dumps (v : value) : result (list byte) :=
  match v with
  | VEllipsis => Raise (Exc ValueError "unmarshallable object")
  | _ => toy_dumps v
  end.

Definition toy_repr (path : string) : string := "'" ++ path ++ "'".

Definition nul_path : string := String "000"%char "out".

(** The file system: an input that may not be read, an output directory
    that is read-only, one that does not exist, a path with a null byte
    and a device that is full. *)
Definition toy_read_fault (path : string) : option exc :=
  if String.eqb path "secret.pyc"
  then Some (Exc OSError "[Errno 13] Permission denied: 'secret.pyc'")
  else None.

Definition toy_create_fault (path : string) : option exc :=
  if String.eqb path "/ro/out"
  then Some (Exc OSError "[Errno 13] Permission denied: '/ro/out'")
  else if String.eqb path "/nonexistent/out.bin"
  then Some (Exc OSError
    "[Errno 2] No such file or directory: '/nonexistent/out.bin'")
  else if String.eqb path nul_path
  then Some (Exc ValueError "embedded null byte")
  else None.

Definition toy_write_fault (path : string) (data : list byte)
    : option (string * list byte) :=
  if String.eqb path "/full/out"
  then Some ("[Errno 28] No space left on device", [])
  else None.

Definition toy : runtime :=
  Runtime value toy_loads toy_dumps toy_repr
    toy_read_fault toy_create_fault toy_write_fault.

Definition picky : runtime :=
  Runtime value toy_loads picky_dumps toy_repr
    toy_read_fault toy_create_fault toy_write_fault.

Definition disk (path : string) (raw : list byte) : gmap string (list byte) :=
  {[ path := raw ]}.

(** Sample inputs: [None] behind a two-byte header; bytes that load
    nowhere; a code object the interpreter rejects, with [None] behind its
    integers; a rejected code object nested in another so that no offset
    below 32 loads; [Ellipsis] followed by [None]; [Ellipsis] behind one
    byte of header; [None] followed by one byte; thirty-two bytes that load
    nowhere with [None] behind them. *)
Definition sample : list byte := [x00; x00; x4e; x00; x01].
Definition garbage : list byte := [x00; x01; x02].
Definition bad_code : list byte :=
  x63 :: repeat x00 20 ++ repeat x4e 30.
Definition bad_code_only : list byte :=
  x63 :: repeat x00 20 ++ repeat x63 5 ++ repeat x00 16 ++ repeat x4e 26.
Definition ellipsis_then_none : list byte := [x2e; x4e].
Definition ellipsis_only : list byte := [x00; x2e].
Definition plain_none : list byte := [x4e; x00].
Definition padded : list byte := repeat x00 32 ++ [x4e].

(** Every slice the scan can take of [raw] is in the fragment. *)
Definition all_modelled (raw : list byte) : bool :=
  forallb (fun k => modelled (drop k raw)) (candidate_offsets raw).

Definition start (raw : list byte) : state := initial (disk "in.pyc" raw).

(** A second machine: the same bytes under another name, and an output
    file left over from an earlier run. *)
Definition other_start : state :=
  initial (<["out.bin" := [x01]]> (disk "copy.pyc" sample)).

Definition run_main : list string -> Py.M Z := main toy.

End Toy.

(** * Properties *)

Local Open Scope list_scope.

(** Unfold the state updates and push the projections of the log through
    the appended events. *)
Ltac effects :=
  unfold after_print, after_dump, after_truncate, after_open, after_loads,
    say, say_err, set_file, add_event, add_events, tried, write_opens,
    dumps_done in *;
  simpl in *;
  rewrite ?flat_map_app; simpl; rewrite ?app_nil_r.

(** ** One iteration of the scan *)

Section Iteration.

Variable rt : runtime.
Variable raw : list byte.
Variable output_path : string.

Local Abbreviation attempt' := (attempt rt raw output_path).
Local Abbreviation iteration' := (iteration rt raw output_path).
Local Abbreviation outcome := (attempt_outcome rt raw output_path).
Local Abbreviation scan_to := (scan_outcome rt raw output_path).

Lemma attempt_cases k s :
  outcome k s (fst (attempt' k s)) (snd (attempt' k s)).
Proof.
  unfold attempt, loads, open_wb, dump, print, Py.bind, Py.lift, Py.modify,
    Py.raise, Py.ret.
  destruct (marshal_loads rt (drop k raw)) as [code|e] eqn:Hl; simpl.
  2: { now apply LoadsRaises. }
  destruct (create_fault rt output_path) as [e|] eqn:Hc; simpl.
  { now apply OpenRaises with code. }
  destruct (marshal_dumps rt code) as [data|e] eqn:Hd; simpl.
  2: { now apply DumpsRaises with code. }
  destruct (write_fault rt output_path data) as [[reason partial]|] eqn:Hw;
    simpl.
  - now apply WriteRaises with code data.
  - now apply Extracted with code.
Qed.

Lemma iteration_unfold k s :
  iteration' k s =
  match attempt' k s with
  | (Ok r, s') => (Ok r, s')
  | (Raise e, s') => if recoverable e then (Ok None, s') else (Raise e, s')
  end.
Proof. reflexivity. Qed.

Lemma for_each_cons k rest s :
  for_each (k :: rest) iteration' s =
  match iteration' k s with
  | (Ok (Some v), s') => (Ok (Some v), s')
  | (Ok None, s') => for_each rest iteration' s'
  | (Raise e, s') => (Raise e, s')
  end.
Proof.
  simpl. unfold Py.bind.
  destruct (iteration' k s) as [[[v|]|e] s']; reflexivity.
Qed.

(** The body of the [try] never falls through without returning: it ends
    with [return 0] or with an exception. *)
Lemma attempt_never_none k s s1 : ~ outcome k s (Ok None) s1.
Proof. intros H. inversion H. Qed.

Lemma attempt_returns_zero k s v s1 : outcome k s (Ok (Some v)) s1 -> v = 0%Z.
Proof. intros H. inversion H. reflexivity. Qed.

Lemma scan_cases offsets :
  forall s,
    scan_to offsets s (fst (for_each offsets iteration' s))
                      (snd (for_each offsets iteration' s)).
Proof.
  induction offsets as [|k rest IH]; intros s.
  - apply ScanExhausted.
  - rewrite for_each_cons, iteration_unfold.
    pose proof (attempt_cases k s) as Hk.
    destruct (attempt' k s) as [[[v|]|e] s1]; simpl in Hk.
    + pose proof (attempt_returns_zero _ _ _ _ Hk) as ->. simpl.
      now apply ScanReturn.
    + now apply attempt_never_none in Hk.
    + destruct (recoverable e) eqn:Hrec; simpl.
      * apply ScanSkip with e s1; auto.
      * now apply ScanAbort.
Qed.

(** *** What one attempt does to the state *)

Lemma attempt_tried k s r s1 :
  outcome k s r s1 -> tried (log s1) = tried (log s) ++ [k].
Proof. inversion 1; subst; effects; reflexivity. Qed.

Lemma attempt_stderr k s r s1 : outcome k s r s1 -> stderr s1 = stderr s.
Proof. inversion 1; subst; reflexivity. Qed.

Lemma attempt_frame k s r s1 p :
  outcome k s r s1 -> p <> output_path -> fs s1 !! p = fs s !! p.
Proof.
  inversion 1; subst; intros Hp; effects;
    rewrite ?lookup_insert_ne by congruence; reflexivity.
Qed.

Lemma attempt_file k s r s1 :
  outcome k s r s1 ->
  fs s1 = fs s \/ exists data, fs s1 = <[output_path := data]> (fs s).
Proof.
  inversion 1; subst; effects; rewrite ?insert_insert_eq; eauto.
Qed.

Lemma attempt_opens k s r s1 :
  outcome k s r s1 ->
  (write_opens (log s1) = write_opens (log s) /\ fs s1 = fs s /\
   exists e, marshal_loads rt (drop k raw) = Raise e) \/
  (write_opens (log s1) = write_opens (log s) ++ [k] /\
   exists code, marshal_loads rt (drop k raw) = Ok code).
Proof. inversion 1; subst; effects; eauto. Qed.

Lemma attempt_raise_quiet k s e s1 :
  outcome k s (Raise e) s1 ->
  stdout s1 = stdout s /\ dumps_done (log s1) = dumps_done (log s).
Proof. inversion 1; subst; effects; auto. Qed.

Lemma attempt_return k s v s1 :
  outcome k s (Ok (Some v)) s1 ->
  exists code data,
    marshal_loads rt (drop k raw) = Ok code /\
    create_fault rt output_path = None /\
    marshal_dumps rt code = Ok data /\
    write_fault rt output_path data = None /\
    s1 = after_print output_path k data s.
Proof. inversion 1; subst; eauto 10. Qed.

(** *** What a whole scan does to the state *)

Lemma scan_stderr offsets s r s' :
  scan_to offsets s r s' -> stderr s' = stderr s.
Proof.
  induction 1 as [s|k rest s e s1 r s' Hk _ _ IH|k rest s e s1 Hk _
                 |k rest s s1 Hk];
    try rewrite IH; eauto using attempt_stderr.
Qed.

Lemma scan_frame offsets s r s' p :
  scan_to offsets s r s' -> p <> output_path -> fs s' !! p = fs s !! p.
Proof.
  induction 1 as [s|k rest s e s1 r s' Hk _ _ IH|k rest s e s1 Hk _
                 |k rest s s1 Hk]; intros Hp;
    try rewrite IH by assumption; eauto using attempt_frame.
Qed.

Lemma scan_file offsets s r s' :
  scan_to offsets s r s' ->
  fs s' = fs s \/ exists data, fs s' = <[output_path := data]> (fs s).
Proof.
  induction 1 as [s|k rest s e s1 r s' Hk _ _ IH|k rest s e s1 Hk _
                 |k rest s s1 Hk]; eauto using attempt_file.
  destruct (attempt_file _ _ _ _ Hk) as [E1|[d1 E1]],
    IH as [E2|[d2 E2]]; rewrite E2, E1, ?insert_insert_eq; eauto.
Qed.

(** The offsets tried are an initial segment of the offsets of the loop, all
    of them when the loop falls through. *)
Lemma scan_tried offsets s r s' :
  scan_to offsets s r s' ->
  exists n, n <= length offsets /\
    tried (log s') = tried (log s) ++ firstn n offsets /\
    (r = Ok None -> n = length offsets).
Proof.
  induction 1 as [s|k rest s e s1 r s' Hk _ _ IH|k rest s e s1 Hk _
                 |k rest s s1 Hk].
  - exists 0. simpl. rewrite app_nil_r. auto.
  - destruct IH as (n & Hn & Ht & Hall).
    exists (S n). simpl. rewrite Ht, (attempt_tried _ _ _ _ Hk), <- app_assoc.
    repeat split; auto with arith.
  - exists 1. simpl. rewrite (attempt_tried _ _ _ _ Hk), firstn_O.
    repeat split; auto with arith. discriminate.
  - exists 1. simpl. rewrite (attempt_tried _ _ _ _ Hk), firstn_O.
    repeat split; auto with arith. discriminate.
Qed.

(** The output is opened only at offsets that deserialised, and a scan that
    never opened it left the files as they were. *)
Lemma scan_opens offsets s r s' :
  scan_to offsets s r s' ->
  exists opened,
    write_opens (log s') = write_opens (log s) ++ opened /\
    Forall (fun o => In o offsets /\
              exists code, marshal_loads rt (drop o raw) = Ok code) opened /\
    (opened = [] -> fs s' = fs s).
Proof.
  induction 1 as [s|k rest s e s1 r s' Hk _ _ IH|k rest s e s1 Hk _
                 |k rest s s1 Hk].
  - exists []. rewrite app_nil_r. auto.
  - destruct IH as (op & Ho & Hall & Hfs).
    assert (Hrest : Forall (fun o => In o (k :: rest) /\
              exists code, marshal_loads rt (drop o raw) = Ok code) op).
    { eapply Forall_impl; [exact Hall|]. simpl. intros o [? ?]; auto. }
    destruct (attempt_opens _ _ _ _ Hk) as [(E & Ef & _)|(E & code & Hc)].
    + exists op. rewrite Ho, E. repeat split; auto.
      intros ->. rewrite Hfs; auto.
    + exists (k :: op). rewrite Ho, E, <- app_assoc. repeat split.
      * constructor; simpl; eauto.
      * discriminate.
  - destruct (attempt_opens _ _ _ _ Hk) as [(E & Ef & _)|(E & code & Hc)].
    + exists []. rewrite app_nil_r. auto.
    + exists [k]. repeat split; auto; [|discriminate].
      constructor; simpl; eauto.
  - destruct (attempt_opens _ _ _ _ Hk) as [(E & Ef & _)|(E & code & Hc)].
    + exists []. rewrite app_nil_r. auto.
    + exists [k]. repeat split; auto; [|discriminate].
      constructor; simpl; eauto.
Qed.

Lemma scan_raise offsets s e s' :
  scan_to offsets s (Raise e) s' -> recoverable e = false.
Proof.
  intros H. remember (Raise e) as r eqn:Hr. revert Hr.
  induction H; intros Hr; try discriminate; auto.
  now inversion Hr; subst.
Qed.

(** Nothing is printed and no dump completes unless the scan returns. *)
Lemma scan_quiet offsets s r s' :
  scan_to offsets s r s' ->
  (forall v, r <> Ok (Some v)) ->
  stdout s' = stdout s /\ dumps_done (log s') = dumps_done (log s).
Proof.
  induction 1 as [s|k rest s e s1 r s' Hk _ _ IH|k rest s e s1 Hk _
                 |k rest s s1 Hk]; intros Hr.
  - auto.
  - destruct (IH Hr) as [-> ->]. eauto using attempt_raise_quiet.
  - eauto using attempt_raise_quiet.
  - now destruct (Hr 0%Z).
Qed.

(** A scan that returns, returns 0 after exactly one completed dump, of the
    object loaded at the last offset tried. *)
Lemma scan_return offsets s v s' :
  scan_to offsets s (Ok (Some v)) s' ->
  v = 0%Z /\
  exists k code data,
    In k offsets /\
    marshal_loads rt (drop k raw) = Ok code /\
    marshal_dumps rt code = Ok data /\
    fs s' = <[output_path := data]> (fs s) /\
    stdout s' = stdout s ++ [msg_extracted k] /\
    dumps_done (log s') = dumps_done (log s) ++ [(k, data)].
Proof.
  intros H. remember (Ok (Some v)) as r eqn:Hr. revert Hr.
  induction H as [s|k rest s e s1 r s' Hk _ _ IH|k rest s e s1 Hk _
                 |k rest s s1 Hk]; intros Hr; try discriminate.
  - destruct (IH Hr) as (Hv & k' & code & data & Hin & Hl & Hd & Hfs & Ho & Hdd).
    split; [exact Hv|]. exists k', code, data.
    destruct (attempt_raise_quiet _ _ _ _ Hk) as [Eo Ed].
    rewrite Hfs, Ho, Hdd, Eo, Ed.
    repeat split; auto; [now right|].
    destruct (attempt_file _ _ _ _ Hk) as [E1|[d1 E1]];
      rewrite E1, ?insert_insert_eq; reflexivity.
  - inversion Hr; subst v.
    destruct (attempt_return _ _ _ _ Hk) as (code & data & Hl & _ & Hd & _ & ->).
    split; [reflexivity|]. exists k, code, data.
    repeat split; auto; [now left|..]; effects;
      rewrite ?insert_insert_eq; reflexivity.
Qed.

End Iteration.

(** ** The whole function *)

Section Function.

Variable rt : runtime.

Local Abbreviation extract := (extract_code_object rt).

Lemma read_binary_ok pyc s raw :
  read_fault rt pyc = None ->
  fs s !! pyc = Some raw ->
  read_binary rt pyc s = (Ok raw, add_event (EvOpenRead pyc) s).
Proof.
  intros Hf Hr. unfold read_binary, Py.bind, Py.modify.
  rewrite Hf. unfold add_event at 1. cbn [fs]. now rewrite Hr.
Qed.

Lemma read_binary_missing pyc s :
  read_fault rt pyc = None ->
  fs s !! pyc = None ->
  read_binary rt pyc s =
  (Raise (file_not_found rt pyc), add_event (EvOpenRead pyc) s).
Proof.
  intros Hf Hr. unfold read_binary, Py.bind, Py.modify.
  rewrite Hf. unfold add_event at 1. cbn [fs]. now rewrite Hr.
Qed.

(** Once the input is read, the function is the scan followed by the
    choice of the message. *)
Lemma extract_read_ok pyc out s raw :
  read_fault rt pyc = None ->
  fs s !! pyc = Some raw ->
  extract pyc out s =
  match scan rt raw out (add_event (EvOpenRead pyc) s) with
  | (Ok (Some v), s') => (Ok v, s')
  | (Ok None, s') => (Ok 1%Z, say_err msg_failed s')
  | (Raise e, s') => (Ok 1%Z, say_err (msg_error e) s')
  end.
Proof.
  intros Hf Hr.
  unfold extract_code_object, Py.try_except, Py.bind.
  rewrite (read_binary_ok _ _ _ Hf Hr).
  destruct (scan rt raw out (add_event (EvOpenRead pyc) s))
    as [[[v|]|e] s']; reflexivity.
Qed.

Lemma extract_read_refused pyc out s e :
  read_fault rt pyc = Some e ->
  extract pyc out s =
  (Ok 1%Z, say_err (msg_error e) (add_event (EvOpenRead pyc) s)).
Proof.
  intros Hf.
  unfold extract_code_object, Py.try_except, Py.bind, read_binary,
    print_stderr, Py.modify, Py.ret, Py.raise.
  rewrite Hf. reflexivity.
Qed.

Lemma extract_read_missing pyc out s :
  read_fault rt pyc = None ->
  fs s !! pyc = None ->
  extract pyc out s =
  (Ok 1%Z, say_err (msg_error (file_not_found rt pyc))
             (add_event (EvOpenRead pyc) s)).
Proof.
  intros Hf Hr.
  unfold extract_code_object, Py.try_except, Py.bind.
  rewrite (read_binary_missing _ _ Hf Hr). reflexivity.
Qed.

(** The two failure messages cannot be confused. *)
Lemma msg_error_not_failed e : msg_error e <> msg_failed.
Proof. unfold msg_error, msg_failed. simpl. discriminate. Qed.

(** An offset whose slice raises a recoverable exception is skipped, leaving
    only the record of the call. *)
Lemma iteration_skip raw out k s :
  loads_skips rt raw k = true ->
  iteration rt raw out k s = (Ok None, after_loads k s).
Proof.
  unfold loads_skips. intros H.
  unfold iteration, Py.try_except, attempt, loads, Py.bind, Py.lift,
    Py.modify.
  destruct (marshal_loads rt (drop k raw)) as [code|e]; [discriminate|].
  simpl. rewrite H. reflexivity.
Qed.

Lemma for_each_skip raw out pre :
  forall rest s,
    Forall (fun j => loads_skips rt raw j = true) pre ->
    for_each (pre ++ rest) (iteration rt raw out) s =
    for_each rest (iteration rt raw out) (add_events (map EvLoads pre) s).
Proof.
  induction pre as [|j pre IH]; intros rest s Hall.
  - unfold add_events. simpl. rewrite app_nil_r. now destruct s.
  - inversion Hall as [|? ? Hj Hpre]; subst.
    rewrite <- app_comm_cons, for_each_cons, iteration_skip by assumption.
    rewrite IH by assumption.
    unfold add_events, after_loads, add_event. simpl.
    now rewrite <- app_assoc.
Qed.

Lemma iteration_extracts raw out k s code data :
  marshal_loads rt (drop k raw) = Ok code ->
  create_fault rt out = None ->
  marshal_dumps rt code = Ok data ->
  write_fault rt out data = None ->
  iteration rt raw out k s = (Ok (Some 0%Z), after_print out k data s).
Proof.
  intros Hl Hc Hd Hw.
  unfold iteration, Py.try_except, attempt, loads, open_wb, dump, print,
    Py.bind, Py.lift, Py.modify, Py.ret.
  rewrite Hl. simpl. rewrite Hc. simpl. rewrite Hd. simpl. rewrite Hw.
  reflexivity.
Qed.

End Function.

(** ** The first valid offset *)

Section FirstValid.

Variable rt : runtime.

Lemma first_valid_offset_spec raw k :
  first_valid_offset rt raw k = true ->
  k < Nat.min 32 (length raw) /\
  loads_ok rt raw k = true /\
  forall j, j < k -> loads_ok rt raw j = false.
Proof.
  unfold first_valid_offset. intros H.
  apply andb_prop in H as [H Hbelow]. apply andb_prop in H as [Hk Hok].
  apply Nat.ltb_lt in Hk. repeat split; auto.
  intros j Hj. rewrite forallb_forall in Hbelow.
  specialize (Hbelow j). rewrite in_seq in Hbelow.
  apply negb_true_iff, Hbelow. lia.
Qed.

Lemma candidate_offsets_split raw k :
  k < Nat.min 32 (length raw) ->
  candidate_offsets raw =
  seq 0 k ++ k :: seq (S k) (Nat.min 32 (length raw) - S k).
Proof.
  intros Hk. unfold candidate_offsets, range0.
  replace (Nat.min 32 (length raw))
    with (k + S (Nat.min 32 (length raw) - S k)) at 1 by lia.
  rewrite seq_app. reflexivity.
Qed.

Lemma candidate_offsets_bound raw o :
  In o (candidate_offsets raw) -> o < Nat.min 32 (length raw).
Proof. unfold candidate_offsets, range0. rewrite in_seq. lia. Qed.

(** C1 (amended).  Let [k] be the smallest offset below [min(32, len(raw))]
    at which [raw[k:]] deserialises.  Whatever else happens, the output is
    never opened for an offset smaller than [k].  If moreover every offset
    below [k] fails with [ValueError], [EOFError] or [TypeError], and the
    output can be opened, serialised and written, then the function returns
    0, prints the success line with [header_offset=k] as its only output,
    leaves in the output file the dump of the object loaded at [k], and has
    called [marshal.loads] at [0..k], then opened and written the output
    once. *)
Theorem C1_first_valid_offset_is_extracted pyc out raw k s r s' :
  read_fault rt pyc = None ->
  fs s !! pyc = Some raw ->
  first_valid_offset rt raw k = true ->
  extract_code_object rt pyc out s = (r, s') ->
  (exists opened,
     write_opens (log s') = write_opens (log s) ++ opened /\
     Forall (fun o => k <= o) opened) /\
  (Forall (fun j => loads_skips rt raw j = true) (seq 0 k) ->
   forall code data,
     marshal_loads rt (drop k raw) = Ok code ->
     create_fault rt out = None ->
     marshal_dumps rt code = Ok data ->
     write_fault rt out data = None ->
     r = Ok 0%Z /\
     stdout s' = stdout s ++ [msg_extracted k] /\
     stderr s' = stderr s /\
     fs s' = <[out := data]> (fs s) /\
     log s' = log s ++ [EvOpenRead pyc] ++ map EvLoads (seq 0 (S k)) ++
              [EvOpenWrite out k; EvDump out k data]).
Proof.
  intros Hf Hr Hk Hrun.
  destruct (first_valid_offset_spec _ _ Hk) as (Hlt & Hok & Hbelow).
  rewrite (extract_read_ok _ _ _ _ _ Hf Hr) in Hrun.
  split.
  - unfold scan in Hrun.
    pose proof (scan_cases rt raw out (candidate_offsets raw)
                  (add_event (EvOpenRead pyc) s)) as Hsc.
    destruct (for_each (candidate_offsets raw) (iteration rt raw out)
                (add_event (EvOpenRead pyc) s)) as [r0 s0].
    simpl in Hsc.
    destruct (scan_opens _ _ _ _ _ _ _ Hsc) as (opened & Ho & Hall & _).
    exists opened. split.
    + assert (log s' = log s0) as ->.
      { destruct r0 as [[v|]|e]; inversion Hrun; reflexivity. }
      rewrite Ho. effects. reflexivity.
    + eapply Forall_impl; [exact Hall|]. simpl.
      intros o [_ [code Hcode]].
      destruct (Nat.le_gt_cases k o) as [|Hlo]; [assumption|].
      specialize (Hbelow o Hlo). unfold loads_ok in Hbelow.
      rewrite Hcode in Hbelow. discriminate.
  - intros Hskip code data Hl Hc Hd Hw.
    unfold scan in Hrun.
    rewrite (candidate_offsets_split _ _ Hlt) in Hrun.
    rewrite for_each_skip in Hrun by assumption.
    rewrite for_each_cons in Hrun.
    rewrite (iteration_extracts _ _ _ _ _ _ _ Hl Hc Hd Hw) in Hrun.
    inversion Hrun; subst r s'. clear Hrun.
    repeat split.
    all: cycle -1.
    { unfold after_print, after_dump, after_truncate, after_open,
        after_loads, say, set_file, add_event, add_events.
      cbn [log]. rewrite seq_S, map_app, <- !app_assoc. reflexivity. }
    all: effects; rewrite ?insert_insert_eq; reflexivity.
Qed.

End FirstValid.

(** ** Failure paths *)

Section Failures.

Variable rt : runtime.

Lemma no_valid_offset_spec raw j code :
  no_valid_offset rt raw = true ->
  In j (candidate_offsets raw) ->
  marshal_loads rt (drop j raw) <> Ok code.
Proof.
  unfold no_valid_offset. rewrite forallb_forall. intros Hno Hj Hcode.
  specialize (Hno j Hj). unfold loads_ok in Hno. rewrite Hcode in Hno.
  discriminate.
Qed.

(** An offset whose slice raises any other exception ends the scan. *)
Lemma iteration_aborts raw out k s e :
  marshal_loads rt (drop k raw) = Raise e ->
  recoverable e = false ->
  iteration rt raw out k s = (Raise e, after_loads k s).
Proof.
  intros Hl Hrec.
  unfold iteration, Py.try_except, attempt, loads, Py.bind, Py.lift,
    Py.modify.
  rewrite Hl. simpl. rewrite Hrec. reflexivity.
Qed.

Lemma tried_map_loads l : tried (map EvLoads l) = l.
Proof. induction l as [|o l IH]; simpl; congruence. Qed.

Lemma scan_all_skip raw out s :
  Forall (fun j => loads_skips rt raw j = true) (candidate_offsets raw) ->
  scan rt raw out s =
  (Ok None, add_events (map EvLoads (candidate_offsets raw)) s).
Proof.
  unfold scan. generalize (candidate_offsets raw) as l. intros l Hall.
  rewrite <- (app_nil_r l) at 1. now rewrite for_each_skip.
Qed.

Lemma scan_first_abort raw out s j e :
  j < Nat.min 32 (length raw) ->
  Forall (fun i => loads_skips rt raw i = true) (seq 0 j) ->
  marshal_loads rt (drop j raw) = Raise e ->
  recoverable e = false ->
  scan rt raw out s =
  (Raise e, after_loads j (add_events (map EvLoads (seq 0 j)) s)).
Proof.
  intros Hj Hskip Hl Hrec. unfold scan.
  rewrite (candidate_offsets_split _ _ Hj).
  rewrite for_each_skip, for_each_cons by assumption.
  now rewrite (iteration_aborts _ _ _ _ _ Hl Hrec).
Qed.

(** C2 (amended).  When no offset below [min(32, len(raw))] deserialises,
    the function returns 1, prints nothing on standard output and exactly
    one line on standard error, never opens the output path and leaves every
    file as it was.  The line is the exhaustion message when every offset
    fails with [ValueError], [EOFError] or [TypeError]; when the first offset
    that fails otherwise raises [e], the line is ['[-] Error: ' + str(e)]. *)
Theorem C2_no_valid_offset_fails_without_output pyc out raw s r s' :
  read_fault rt pyc = None ->
  fs s !! pyc = Some raw ->
  no_valid_offset rt raw = true ->
  extract_code_object rt pyc out s = (r, s') ->
  r = Ok 1%Z /\
  fs s' = fs s /\
  write_opens (log s') = write_opens (log s) /\
  dumps_done (log s') = dumps_done (log s) /\
  stdout s' = stdout s /\
  (exists line, stderr s' = stderr s ++ [line]) /\
  (Forall (fun j => loads_skips rt raw j = true) (candidate_offsets raw) ->
   stderr s' = stderr s ++ [msg_failed] /\
   tried (log s') = tried (log s) ++ candidate_offsets raw) /\
  (forall j e,
     j < Nat.min 32 (length raw) ->
     Forall (fun i => loads_skips rt raw i = true) (seq 0 j) ->
     marshal_loads rt (drop j raw) = Raise e ->
     recoverable e = false ->
     stderr s' = stderr s ++ [msg_error e]).
Proof.
  intros Hf Hr Hno Hrun.
  rewrite (extract_read_ok _ _ _ _ _ Hf Hr) in Hrun.
  pose proof (scan_cases rt raw out (candidate_offsets raw)
                (add_event (EvOpenRead pyc) s)) as Hsc.
  fold (scan rt raw out) in Hsc.
  set (s0 := add_event (EvOpenRead pyc) s) in *.
  assert (Hfacts :
    fs (snd (scan rt raw out s0)) = fs s /\
    write_opens (log (snd (scan rt raw out s0))) = write_opens (log s) /\
    stderr (snd (scan rt raw out s0)) = stderr s /\
    forall v, fst (scan rt raw out s0) <> Ok (Some v)).
  { destruct (scan_opens _ _ _ _ _ _ _ Hsc) as (opened & Ho & Hall & Hfs).
    assert (opened = []) as ->.
    { destruct opened as [|o opened]; [reflexivity|].
      inversion Hall as [|? ? [Hin [code Hcode]] _]; subst.
      now destruct (no_valid_offset_spec _ _ code Hno Hin). }
    rewrite Hfs, Ho, (scan_stderr _ _ _ _ _ _ _ Hsc) by reflexivity.
    subst s0. effects. repeat split; try reflexivity.
    intros v Hv. rewrite Hv in Hsc.
    destruct (scan_return _ _ _ _ _ _ _ Hsc)
      as (_ & k & code & _ & Hin & Hcode & _).
    now destruct (no_valid_offset_spec _ _ code Hno Hin). }
  destruct Hfacts as (Hfs & Hwo & Herr & Hnot).
  destruct (scan_quiet _ _ _ _ _ _ _ Hsc Hnot) as [Hout Hdd].
  assert (Hshape : r = Ok 1%Z /\
            exists line, s' = say_err line (snd (scan rt raw out s0))).
  { destruct (scan rt raw out s0) as [[[v|]|e] s1]; simpl in *;
      inversion Hrun; subst; eauto.
    now destruct (Hnot v). }
  destruct Hshape as [-> [line ->]].
  repeat split.
  - exact Hfs.
  - exact Hwo.
  - simpl. rewrite Hdd. subst s0. effects. reflexivity.
  - simpl. rewrite Hout. reflexivity.
  - exists line. simpl. now rewrite Herr.
  - rewrite (scan_all_skip _ _ _ H) in Hrun. inversion Hrun as [Hs'].
    simpl. now rewrite Herr.
  - rewrite (scan_all_skip _ _ _ H). effects.
    f_equal. apply tried_map_loads.
  - intros j e Hj Hskip Hl Hrec.
    rewrite (scan_first_abort _ _ _ _ _ Hj Hskip Hl Hrec) in Hrun.
    inversion Hrun as [Hs']. simpl. now rewrite Herr.
Qed.

(** C9.  For an empty input file the loop body never runs: the function
    returns 1, prints the exhaustion message on standard error and nothing
    on standard output; the only call to the outside world is the read of
    the input, and no file is changed. *)
Theorem C9_empty_input_is_exhausted pyc out s :
  read_fault rt pyc = None ->
  fs s !! pyc = Some [] ->
  candidate_offsets [] = [] /\
  exists s',
    extract_code_object rt pyc out s = (Ok 1%Z, s') /\
    stdout s' = stdout s /\
    stderr s' =
      stderr s ++ ["[-] Failed to extract valid code object"%string] /\
    fs s' = fs s /\
    log s' = log s ++ [EvOpenRead pyc].
Proof.
  intros Hf Hr. split; [reflexivity|].
  rewrite (extract_read_ok _ _ _ _ _ Hf Hr).
  eexists. split; [reflexivity|]. repeat split.
Qed.

(** C7.  With [len(sys.argv) != 3] the program prints the usage line on
    standard error, nothing on standard output, and exits with status 1;
    files and the record of calls are untouched. *)
Theorem C7_wrong_argument_count_prints_usage argv s :
  length argv <> 3 ->
  exists s',
    main rt argv s = (Ok 1%Z, s') /\
    stdout s' = stdout s /\
    stderr s' =
      stderr s ++
      ["Usage: marshal_extract.py <input.pyc> <output.marshaled>"%string] /\
    fs s' = fs s /\
    log s' = log s.
Proof.
  intros Hlen.
  destruct argv as [|a0 [|a1 [|a2 [|a3 rest]]]];
    try (eexists; split; [reflexivity|]; repeat split).
  now destruct Hlen.
Qed.

End Failures.

(** ** Which exceptions skip and which abort *)

Section Triage.

Variable rt : runtime.

Lemma recoverable_classes e :
  recoverable e = true <->
  exc_type e = ValueError \/ exc_type e = EOFError \/ exc_type e = TypeError.
Proof.
  unfold recoverable. destruct (exc_type e); split; auto;
    intros H; try discriminate; destruct H as [H|[H|H]]; discriminate.
Qed.

Lemma attempt_raises_quietly raw out k s e s1 :
  attempt rt raw out k s = (Raise e, s1) ->
  stdout s1 = stdout s /\ stderr s1 = stderr s.
Proof.
  intros H. pose proof (attempt_cases rt raw out k s) as Hc.
  rewrite H in Hc. simpl in Hc. split.
  - now apply (attempt_raise_quiet _ _ _ _ _ _ _ Hc).
  - now apply (attempt_stderr _ _ _ _ _ _ _ Hc).
Qed.

(** C3.  In the scan, an exception raised by the body of the inner [try]
    (by [marshal.loads], [open] or [marshal.dump]) is caught by the inner
    handler exactly when it is a [ValueError], [EOFError] or [TypeError]:
    the loop then goes on to the next offset with nothing printed.  Any
    other exception leaves the loop at once; the function then returns 1
    with nothing on standard output and one more line on standard error,
    ['[-] Error: ' + str(e)], which differs from the exhaustion message.
    For a missing input file that line carries the message of the
    [OSError] raised by [open], and nothing else happens. *)
Theorem C3_error_triage :
  (forall e,
     recoverable e = true <->
     exc_type e = ValueError \/ exc_type e = EOFError \/
     exc_type e = TypeError) /\
  (forall raw out k rest s e s1,
     attempt rt raw out k s = (Raise e, s1) ->
     stdout s1 = stdout s /\ stderr s1 = stderr s /\
     (recoverable e = true ->
      for_each (k :: rest) (iteration rt raw out) s =
      for_each rest (iteration rt raw out) s1) /\
     (recoverable e = false ->
      for_each (k :: rest) (iteration rt raw out) s = (Raise e, s1))) /\
  (forall pyc out raw s e s1,
     read_fault rt pyc = None ->
     fs s !! pyc = Some raw ->
     scan rt raw out (add_event (EvOpenRead pyc) s) = (Raise e, s1) ->
     recoverable e = false /\
     stdout s1 = stdout s /\ stderr s1 = stderr s /\
     ("[-] Error: " ++ exc_str e)%string <>
       "[-] Failed to extract valid code object"%string /\
     exists s',
       extract_code_object rt pyc out s = (Ok 1%Z, s') /\
       stdout s' = stdout s /\
       stderr s' = stderr s ++ [("[-] Error: " ++ exc_str e)%string] /\
       fs s' = fs s1 /\
       log s' = log s1) /\
  (forall pyc out s,
     read_fault rt pyc = None ->
     fs s !! pyc = None ->
     exists s',
       extract_code_object rt pyc out s = (Ok 1%Z, s') /\
       stdout s' = stdout s /\
       stderr s' =
         stderr s ++
         [("[-] Error: [Errno 2] No such file or directory: "
           ++ py_repr rt pyc)%string] /\
       fs s' = fs s /\
       log s' = log s ++ [EvOpenRead pyc]).
Proof.
  split; [exact recoverable_classes|]. split; [|split].
  - intros raw out k rest s e s1 Ha.
    destruct (attempt_raises_quietly _ _ _ _ _ _ Ha) as [Hout Herr].
    repeat split; auto; intros Hrec;
      rewrite for_each_cons, iteration_unfold, Ha, Hrec; reflexivity.
  - intros pyc out raw s e s1 Hf Hr Hscan.
    pose proof (scan_cases rt raw out (candidate_offsets raw)
                  (add_event (EvOpenRead pyc) s)) as Hsc.
    fold (scan rt raw out) in Hsc. rewrite Hscan in Hsc. simpl in Hsc.
    assert (Hout : stdout s1 = stdout s).
    { apply (scan_quiet _ _ _ _ _ _ _ Hsc). discriminate. }
    pose proof (scan_stderr _ _ _ _ _ _ _ Hsc) as Herr.
    split; [exact (scan_raise _ _ _ _ _ _ _ Hsc)|].
    split; [exact Hout|]. split; [exact Herr|].
    split; [exact (msg_error_not_failed e)|].
    exists (say_err (msg_error e) s1).
    rewrite (extract_read_ok _ _ _ _ _ Hf Hr), Hscan.
    split; [reflexivity|]. unfold say_err, msg_error. cbn [stdout stderr fs log].
    rewrite Hout, Herr. repeat split.
  - intros pyc out s Hf Hr.
    rewrite (extract_read_missing _ _ _ _ Hf Hr).
    eexists. split; [reflexivity|]. repeat split.
Qed.

End Triage.

(** ** Recoverable errors after a successful load *)

Section WriteStage.

Variable rt : runtime.

Lemma iteration_open_skip raw out k s code e :
  marshal_loads rt (drop k raw) = Ok code ->
  create_fault rt out = Some e ->
  recoverable e = true ->
  iteration rt raw out k s = (Ok None, after_open out k s).
Proof.
  intros Hl Hc Hrec.
  unfold iteration, Py.try_except, attempt, loads, open_wb, Py.bind,
    Py.lift, Py.modify, Py.raise.
  rewrite Hl. simpl. rewrite Hc. simpl. rewrite Hrec. reflexivity.
Qed.

Lemma iteration_dumps_skip raw out k s code e :
  marshal_loads rt (drop k raw) = Ok code ->
  create_fault rt out = None ->
  marshal_dumps rt code = Raise e ->
  recoverable e = true ->
  iteration rt raw out k s = (Ok None, after_truncate out k s).
Proof.
  intros Hl Hc Hd Hrec.
  unfold iteration, Py.try_except, attempt, loads, open_wb, dump, Py.bind,
    Py.lift, Py.modify, Py.raise.
  rewrite Hl. simpl. rewrite Hc. simpl. rewrite Hd. simpl. rewrite Hrec.
  reflexivity.
Qed.

Lemma dump_skips_spec raw k :
  dump_skips rt raw k = true ->
  exists code e,
    marshal_loads rt (drop k raw) = Ok code /\
    marshal_dumps rt code = Raise e /\ recoverable e = true.
Proof.
  unfold dump_skips.
  destruct (marshal_loads rt (drop k raw)) as [code|]; [|discriminate].
  destruct (marshal_dumps rt code) as [|e] eqn:Hd; [discriminate|].
  eauto.
Qed.

Lemma loads_skips_not_dump raw k :
  loads_skips rt raw k = true -> dump_skips rt raw k = false.
Proof.
  unfold loads_skips, dump_skips.
  now destruct (marshal_loads rt (drop k raw)).
Qed.

(** A run of offsets that each skip, at the load or at the dump. *)
Lemma for_each_skip_writes raw out pre :
  create_fault rt out = None ->
  forall rest s,
    Forall (fun j => loads_skips rt raw j = true \/
                     dump_skips rt raw j = true) pre ->
    exists s1,
      for_each (pre ++ rest) (iteration rt raw out) s =
      for_each rest (iteration rt raw out) s1 /\
      stdout s1 = stdout s /\ stderr s1 = stderr s /\
      tried (log s1) = tried (log s) ++ pre /\
      write_opens (log s1) =
        write_opens (log s) ++ List.filter (dump_skips rt raw) pre /\
      dumps_done (log s1) = dumps_done (log s) /\
      fs s1 = if existsb (dump_skips rt raw) pre
              then <[out := []]> (fs s) else fs s.
Proof.
  intros Hc. induction pre as [|j pre IH]; intros rest s Hall.
  - exists s. simpl. rewrite !app_nil_r. auto 10.
  - inversion Hall as [|? ? Hj Hpre]; subst.
    rewrite <- app_comm_cons, for_each_cons.
    destruct Hj as [Hj|Hj].
    + rewrite iteration_skip by assumption.
      destruct (IH rest (after_loads j s) Hpre)
        as (s1 & -> & Ho & He & Ht & Hw & Hd & Hfs).
      exists s1. simpl. rewrite (loads_skips_not_dump _ _ Hj). simpl.
      rewrite Ho, He, Ht, Hw, Hd, Hfs. effects.
      rewrite <- ?app_assoc. auto 10.
    + destruct (dump_skips_spec _ _ Hj) as (code & e & Hl & Hd' & Hrec).
      rewrite (iteration_dumps_skip _ _ _ _ _ _ Hl Hc Hd' Hrec).
      destruct (IH rest (after_truncate out j s) Hpre)
        as (s1 & -> & Ho & He & Ht & Hw & Hd & Hfs).
      exists s1. simpl. rewrite Hj. simpl.
      rewrite Ho, He, Ht, Hw, Hd, Hfs. effects.
      rewrite <- ?app_assoc.
      destruct (existsb (dump_skips rt raw) pre);
        rewrite ?insert_insert_eq; auto 10.
Qed.

(** C8.  When [raw[k:]] deserialises but [open(output_path, 'wb')] or the
    serialisation of the object raises [ValueError], [EOFError] or
    [TypeError], the loop goes on to the next offset; if the open had
    succeeded the output file now exists and is empty.  So a run can end
    with the exhaustion message, or with an extraction at a later offset,
    after the output file was created or truncated. *)
Theorem C8_write_stage_errors_continue_the_scan :
  (forall raw out k code e rest s,
     marshal_loads rt (drop k raw) = Ok code ->
     recoverable e = true ->
     create_fault rt out = Some e \/
     (create_fault rt out = None /\ marshal_dumps rt code = Raise e) ->
     exists s1,
       for_each (k :: rest) (iteration rt raw out) s =
       for_each rest (iteration rt raw out) s1 /\
       stdout s1 = stdout s /\ stderr s1 = stderr s /\
       write_opens (log s1) = write_opens (log s) ++ [k] /\
       dumps_done (log s1) = dumps_done (log s) /\
       (create_fault rt out = None -> fs s1 = <[out := []]> (fs s)) /\
       (create_fault rt out = Some e -> fs s1 = fs s)) /\
  (forall pyc out raw s,
     read_fault rt pyc = None ->
     fs s !! pyc = Some raw ->
     create_fault rt out = None ->
     Forall (fun j => loads_skips rt raw j = true \/
                      dump_skips rt raw j = true) (candidate_offsets raw) ->
     existsb (dump_skips rt raw) (candidate_offsets raw) = true ->
     exists s',
       extract_code_object rt pyc out s = (Ok 1%Z, s') /\
       stdout s' = stdout s /\
       stderr s' = stderr s ++ [msg_failed] /\
       fs s' = <[out := []]> (fs s) /\
       write_opens (log s') =
         write_opens (log s) ++
         List.filter (dump_skips rt raw) (candidate_offsets raw)) /\
  (forall pyc out raw s k code data,
     read_fault rt pyc = None ->
     fs s !! pyc = Some raw ->
     create_fault rt out = None ->
     k < Nat.min 32 (length raw) ->
     Forall (fun j => loads_skips rt raw j = true \/
                      dump_skips rt raw j = true) (seq 0 k) ->
     marshal_loads rt (drop k raw) = Ok code ->
     marshal_dumps rt code = Ok data ->
     write_fault rt out data = None ->
     exists s',
       extract_code_object rt pyc out s = (Ok 0%Z, s') /\
       stdout s' = stdout s ++ [msg_extracted k] /\
       stderr s' = stderr s /\
       fs s' = <[out := data]> (fs s) /\
       write_opens (log s') =
         write_opens (log s) ++
         List.filter (dump_skips rt raw) (seq 0 k) ++ [k]).
Proof.
  split; [|split].
  - intros raw out k code e rest s Hl Hrec [Hc|[Hc Hd]].
    + exists (after_open out k s).
      rewrite for_each_cons, (iteration_open_skip _ _ _ _ _ _ Hl Hc Hrec).
      effects. repeat split; auto. intros Hc'. congruence.
    + exists (after_truncate out k s).
      rewrite for_each_cons,
        (iteration_dumps_skip _ _ _ _ _ _ Hl Hc Hd Hrec).
      effects. repeat split; auto. intros Hc'. congruence.
  - intros pyc out raw s Hf Hr Hc Hall Hex.
    destruct (for_each_skip_writes raw out (candidate_offsets raw) Hc []
                (add_event (EvOpenRead pyc) s) Hall)
      as (s1 & Hrun & Ho & He & _ & Hw & _ & Hfs).
    rewrite app_nil_r in Hrun. rewrite Hex in Hfs.
    exists (say_err msg_failed s1).
    rewrite (extract_read_ok _ _ _ _ _ Hf Hr). unfold scan.
    rewrite Hrun. simpl. rewrite Ho, He, Hw, Hfs. effects. auto.
  - intros pyc out raw s k code data Hf Hr Hc Hk Hall Hl Hd Hw.
    destruct (for_each_skip_writes raw out (seq 0 k) Hc
                (k :: seq (S k) (Nat.min 32 (length raw) - S k))
                (add_event (EvOpenRead pyc) s) Hall)
      as (s1 & Hrun & Ho & He & _ & Hwo & _ & Hfs).
    exists (after_print out k data s1).
    rewrite (extract_read_ok _ _ _ _ _ Hf Hr). unfold scan.
    rewrite (candidate_offsets_split _ _ Hk), Hrun, for_each_cons.
    rewrite (iteration_extracts _ _ _ _ _ _ _ Hl Hc Hd Hw).
    split; [reflexivity|].
    unfold after_print, after_dump, after_truncate, after_open, after_loads,
      say, set_file, add_event. cbn [fs stdout stderr log].
    rewrite Ho, He, Hfs. unfold write_opens in *.
    rewrite !flat_map_app, Hwo. effects.
    rewrite <- ?app_assoc.
    destruct (existsb (dump_skips rt raw) (seq 0 k));
      rewrite ?insert_insert_eq; auto.
Qed.

End WriteStage.

(** ** The success line names its offset *)

Lemma append_inv_head (p a b : string) :
  (p ++ a)%string = (p ++ b)%string -> a = b.
Proof.
  induction p as [|c p IH]; simpl; intros H; [exact H|].
  injection H as H. auto.
Qed.

Lemma list_ascii_of_append (a b : string) :
  list_ascii_of_string (a ++ b) =
  list_ascii_of_string a ++ list_ascii_of_string b.
Proof. induction a as [|c a IH]; simpl; [reflexivity|congruence]. Qed.

Lemma append_inv_tail (a b t : string) :
  (a ++ t)%string = (b ++ t)%string -> a = b.
Proof.
  intros H. apply (f_equal list_ascii_of_string) in H.
  rewrite !list_ascii_of_append in H. apply app_inv_tail in H.
  rewrite <- (string_of_list_ascii_of_string a),
          <- (string_of_list_ascii_of_string b).
  now f_equal.
Qed.

Lemma str_of_nat_inj a b : str_of_nat a = str_of_nat b -> a = b.
Proof.
  unfold str_of_nat. intros H.
  apply (f_equal NilEmpty.uint_of_string) in H.
  rewrite !NilEmpty.usu in H. injection H as H.
  now apply Unsigned.to_uint_inj.
Qed.

Lemma msg_extracted_inj a b : msg_extracted a = msg_extracted b -> a = b.
Proof.
  unfold msg_extracted. intros H.
  apply append_inv_head, append_inv_tail in H. now apply str_of_nat_inj.
Qed.


Lemma list_one_inj {A} (a b : A) : [a] = [b] -> a = b.
Proof. intros H. now injection H. Qed.

Lemma app_one_not_nil {A} (l : list A) (x : A) : l <> l ++ [x].
Proof.
  intros H. apply (f_equal (@length A)) in H.
  rewrite length_app in H. simpl in H. lia.
Qed.

Section Runs.

Variable rt : runtime.

Lemma extract_inv_read pyc out raw s r s' :
  read_fault rt pyc = None ->
  fs s !! pyc = Some raw ->
  extract_code_object rt pyc out s = (r, s') ->
  exists r0 s0,
    scan_outcome rt raw out (candidate_offsets raw)
      (add_event (EvOpenRead pyc) s) r0 s0 /\
    match r0 with
    | Ok (Some v) => r = Ok v /\ s' = s0
    | Ok None => r = Ok 1%Z /\ s' = say_err msg_failed s0
    | Raise e => r = Ok 1%Z /\ s' = say_err (msg_error e) s0
    end.
Proof.
  intros Hf Hr Hrun.
  rewrite (extract_read_ok _ _ _ _ _ Hf Hr) in Hrun.
  pose proof (scan_cases rt raw out (candidate_offsets raw)
                (add_event (EvOpenRead pyc) s)) as Hsc.
  fold (scan rt raw out) in Hsc.
  destruct (scan rt raw out (add_event (EvOpenRead pyc) s))
    as [r0 s0]. simpl in Hsc.
  exists r0, s0. split; [exact Hsc|].
  destruct r0 as [[v|]|e]; inversion Hrun; auto.
Qed.

(** Every run, seen from the scan: what was read, how the scan ended. *)
Lemma extract_inv pyc out s r s' :
  extract_code_object rt pyc out s = (r, s') ->
  (exists e,
     r = Ok 1%Z /\
     s' = say_err (msg_error e) (add_event (EvOpenRead pyc) s)) \/
  (exists raw r0 s0,
     read_fault rt pyc = None /\
     fs s !! pyc = Some raw /\
     scan_outcome rt raw out (candidate_offsets raw)
       (add_event (EvOpenRead pyc) s) r0 s0 /\
     match r0 with
     | Ok (Some v) => r = Ok v /\ s' = s0
     | Ok None => r = Ok 1%Z /\ s' = say_err msg_failed s0
     | Raise e => r = Ok 1%Z /\ s' = say_err (msg_error e) s0
     end).
Proof.
  intros Hrun.
  destruct (read_fault rt pyc) as [e|] eqn:Hf.
  { rewrite (extract_read_refused _ _ _ _ _ Hf) in Hrun.
    inversion Hrun. eauto. }
  destruct (fs s !! pyc) as [raw|] eqn:Hr.
  2: { rewrite (extract_read_missing _ _ _ _ Hf Hr) in Hrun.
       inversion Hrun. eauto. }
  right.
  destruct (extract_inv_read _ _ _ _ _ _ Hf Hr Hrun) as (r0 & s0 & ? & ?).
  exists raw, r0, s0. auto.
Qed.

(** C4.  Assume [marshal] round-trips: loading the bytes of a dump gives an
    object equivalent to the one dumped.  Then, whenever the function
    returns 0 and reports [header_offset=k], the output file holds bytes
    that load to an object equivalent to the one [raw[k:]] loads to. *)
Theorem C4_output_round_trips (equiv : obj rt -> obj rt -> Prop)
    pyc out raw k s s' :
  (forall code data,
     marshal_dumps rt code = Ok data ->
     exists code', marshal_loads rt data = Ok code' /\ equiv code' code) ->
  fs s !! pyc = Some raw ->
  extract_code_object rt pyc out s = (Ok 0%Z, s') ->
  stdout s' = stdout s ++ [msg_extracted k] ->
  exists code data code',
    k < Nat.min 32 (length raw) /\
    marshal_loads rt (drop k raw) = Ok code /\
    marshal_dumps rt code = Ok data /\
    fs s' !! out = Some data /\
    marshal_loads rt data = Ok code' /\
    equiv code' code.
Proof.
  intros Hlaw Hr Hrun Hline.
  destruct (extract_inv _ _ _ _ _ Hrun)
    as [(e & Hbad & _)|(raw' & r0 & s0 & Hf & Hr' & Hsc & Hend)];
    [discriminate|].
  assert (raw' = raw) as -> by congruence.
  destruct r0 as [[v|]|e]; destruct Hend as [Hv ->]; try discriminate.
  destruct (scan_return _ _ _ _ _ _ _ Hsc)
    as (_ & k' & code & data & Hin & Hl & Hd & Hfs & Hout & _).
  rewrite Hout in Hline. unfold add_event in Hline. cbn [stdout] in Hline.
  apply app_inv_head, list_one_inj, msg_extracted_inj in Hline. subst k'.
  destruct (Hlaw _ _ Hd) as (code' & Hl' & Heq).
  exists code, data, code'. repeat split; auto.
  - now apply candidate_offsets_bound.
  - rewrite Hfs. apply lookup_insert_eq.
Qed.

(** C5 (amended).  For an input shorter than 32 bytes the offsets of the
    loop are exactly [0 .. len(raw)-1].  The offsets tried in a run are an
    initial segment of them, in order, and all of them when the run ends
    with the exhaustion message; every slice [raw[offset:]] taken starts
    inside [raw]. *)
Theorem C5_short_input_scan_bound pyc out raw s r s' :
  read_fault rt pyc = None ->
  fs s !! pyc = Some raw ->
  length raw < 32 ->
  extract_code_object rt pyc out s = (r, s') ->
  candidate_offsets raw = seq 0 (length raw) /\
  exists n,
    n <= length raw /\
    tried (log s') = tried (log s) ++ seq 0 n /\
    (forall o, In o (seq 0 n) ->
       o < length raw /\ length (drop o raw) = length raw - o /\
       drop o raw <> []) /\
    (stderr s' = stderr s ++ [msg_failed] -> n = length raw).
Proof.
  intros Hf Hr Hlen Hrun.
  assert (Hcand : candidate_offsets raw = seq 0 (length raw)).
  { unfold candidate_offsets, range0. f_equal. lia. }
  split; [exact Hcand|].
  destruct (extract_inv_read _ _ _ _ _ _ Hf Hr Hrun)
    as (r0 & s0 & Hsc & Hend).
  destruct (scan_tried _ _ _ _ _ _ _ Hsc) as (n & Hn & Ht & Hall).
  rewrite Hcand, length_seq in *. rewrite take_seq in Ht.
  replace (Nat.min n (length raw)) with n in Ht by lia.
  pose proof (scan_stderr _ _ _ _ _ _ _ Hsc) as Herr.
  exists n. repeat split; auto.
  - assert (log s' = log s0) as ->.
    { destruct r0 as [[v|]|e]; destruct Hend as [_ ->]; reflexivity. }
    rewrite Ht. effects. reflexivity.
  - apply in_seq in H. lia.
  - rewrite length_drop. reflexivity.
  - apply in_seq in H. intros Hnil.
    apply (f_equal (@length byte)) in Hnil.
    rewrite length_drop in Hnil. simpl in Hnil. lia.
  - intros Hline. apply Hall.
    destruct r0 as [[v|]|e]; destruct Hend as [_ ->]; auto; exfalso;
      simpl in Hline; rewrite ?Herr in Hline; simpl in Hline.
    + now apply app_one_not_nil in Hline.
    + apply app_inv_head, list_one_inj in Hline.
      now apply msg_error_not_failed in Hline.
Qed.


End Runs.

(** ** Determinism *)

Section Determinism.

Variable rt : runtime.
Variable out : string.

Lemma apply_delta_nil s : apply_delta out delta_nil s = s.
Proof.
  destruct s. unfold apply_delta. simpl. now rewrite !app_nil_r.
Qed.

Lemma apply_delta_seq d1 d2 s :
  apply_delta out d2 (apply_delta out d1 s) =
  apply_delta out (delta_seq d1 d2) s.
Proof.
  unfold apply_delta, delta_seq. simpl. rewrite <- !app_assoc.
  destruct (d_file d2), (d_file d1); simpl;
    rewrite ?insert_insert_eq; reflexivity.
Qed.

Lemma uniform_ret {A} (a : A) : uniform out (Py.ret a).
Proof.
  exists (Ok a), delta_nil. intros s. now rewrite apply_delta_nil.
Qed.

Lemma uniform_raise {A} e : uniform out (@Py.raise A e).
Proof.
  exists (Raise e), delta_nil. intros s. now rewrite apply_delta_nil.
Qed.

Lemma uniform_lift {A} (r : result A) : uniform out (Py.lift r).
Proof. exists r, delta_nil. intros s. now rewrite apply_delta_nil. Qed.

Lemma uniform_event ev : uniform out (Py.modify (add_event ev)).
Proof.
  exists (Ok tt), (Delta None [] [] [ev]). intros s.
  unfold Py.modify, add_event, apply_delta. simpl.
  now rewrite !app_nil_r.
Qed.

Lemma uniform_set_file data : uniform out (Py.modify (set_file out data)).
Proof.
  exists (Ok tt), (Delta (Some data) [] [] []). intros s.
  unfold Py.modify, set_file, apply_delta. simpl.
  now rewrite !app_nil_r.
Qed.

Lemma uniform_print line : uniform out (print line).
Proof.
  exists (Ok tt), (Delta None [line] [] []). intros s.
  unfold print, Py.modify, say, apply_delta. simpl.
  now rewrite !app_nil_r.
Qed.

Lemma uniform_print_stderr line : uniform out (print_stderr line).
Proof.
  exists (Ok tt), (Delta None [] [line] []). intros s.
  unfold print_stderr, Py.modify, say_err, apply_delta. simpl.
  now rewrite !app_nil_r.
Qed.

Lemma say_err_delta line s :
  say_err line s = apply_delta out (Delta None [] [line] []) s.
Proof. unfold say_err, apply_delta. simpl. now rewrite !app_nil_r. Qed.

Lemma uniform_bind {A B} (m : Py.M A) (k : A -> Py.M B) :
  uniform out m -> (forall a, uniform out (k a)) ->
  uniform out (Py.bind m k).
Proof.
  intros (r & d & Hm) Hk. destruct r as [a|e].
  - destruct (Hk a) as (r2 & d2 & Hka).
    exists r2, (delta_seq d d2). intros s.
    unfold Py.bind. now rewrite Hm, Hka, apply_delta_seq.
  - exists (Raise e), d. intros s. unfold Py.bind. now rewrite Hm.
Qed.

Lemma uniform_try {A} (body : Py.M A) catches handler :
  uniform out body -> (forall e, uniform out (handler e)) ->
  uniform out (Py.try_except body catches handler).
Proof.
  intros (r & d & Hm) Hh. destruct r as [a|e].
  - exists (Ok a), d. intros s. unfold Py.try_except. now rewrite Hm.
  - destruct (catches e) eqn:Hc.
    + destruct (Hh e) as (r2 & d2 & Hhe).
      exists r2, (delta_seq d d2). intros s.
      unfold Py.try_except. now rewrite Hm, Hc, Hhe, apply_delta_seq.
    + exists (Raise e), d. intros s.
      unfold Py.try_except. now rewrite Hm, Hc.
Qed.

Lemma uniform_iteration raw k : uniform out (iteration rt raw out k).
Proof.
  unfold iteration. apply uniform_try; [|intros; apply uniform_ret].
  unfold attempt, loads, open_wb, dump.
  repeat (apply uniform_bind; [|intros]);
    auto using uniform_event, uniform_lift, uniform_print, uniform_ret.
  - destruct (create_fault rt out);
      auto using uniform_raise, uniform_set_file.
  - destruct (write_fault rt out _) as [[reason partial]|];
      repeat (apply uniform_bind; [|intros]);
      auto using uniform_event, uniform_raise, uniform_set_file.
Qed.

Lemma uniform_for_each raw offsets :
  uniform out (for_each offsets (iteration rt raw out)).
Proof.
  induction offsets as [|k rest IH]; simpl.
  - apply uniform_ret.
  - apply uniform_bind; [apply uniform_iteration|].
    intros [v|]; [apply uniform_ret|exact IH].
Qed.

(** Everything the function does after reading the input. *)
Lemma uniform_after_read raw :
  exists r d, forall pyc s,
    read_fault rt pyc = None ->
    fs s !! pyc = Some raw ->
    extract_code_object rt pyc out s =
    (Ok r, apply_delta out d (add_event (EvOpenRead pyc) s)).
Proof.
  destruct (uniform_for_each raw (candidate_offsets raw)) as (r0 & d0 & H0).
  fold (scan rt raw out) in H0.
  destruct r0 as [[v|]|e].
  - exists v, d0. intros pyc s Hf Hr.
    now rewrite (extract_read_ok _ _ _ _ _ Hf Hr), H0.
  - exists 1%Z, (delta_seq d0 (Delta None [] [msg_failed] [])).
    intros pyc s Hf Hr.
    now rewrite (extract_read_ok _ _ _ _ _ Hf Hr), H0, say_err_delta,
      apply_delta_seq.
  - exists 1%Z, (delta_seq d0 (Delta None [] [msg_error e] [])).
    intros pyc s Hf Hr.
    now rewrite (extract_read_ok _ _ _ _ _ Hf Hr), H0, say_err_delta,
      apply_delta_seq.
Qed.

(** C10.  Two runs on input files with the same bytes, with the same output
    path and the same runtime, return the same value and have the same
    effect: the same lines on standard output and standard error, the same
    calls after the read of the input, and, when the output file is opened
    at all, the same bytes in it. *)
Theorem C10_extract_is_deterministic raw pyc1 pyc2 s1 s2 r1 t1 r2 t2 :
  read_fault rt pyc1 = None ->
  read_fault rt pyc2 = None ->
  fs s1 !! pyc1 = Some raw ->
  fs s2 !! pyc2 = Some raw ->
  extract_code_object rt pyc1 out s1 = (r1, t1) ->
  extract_code_object rt pyc2 out s2 = (r2, t2) ->
  r1 = r2 /\
  exists d,
    t1 = apply_delta out d (add_event (EvOpenRead pyc1) s1) /\
    t2 = apply_delta out d (add_event (EvOpenRead pyc2) s2) /\
    stdout t1 = stdout s1 ++ d_out d /\
    stdout t2 = stdout s2 ++ d_out d /\
    stderr t1 = stderr s1 ++ d_err d /\
    stderr t2 = stderr s2 ++ d_err d /\
    tried (log t1) = tried (log s1) ++ tried (d_log d) /\
    tried (log t2) = tried (log s2) ++ tried (d_log d) /\
    match d_file d with
    | Some data => fs t1 !! out = Some data /\ fs t2 !! out = Some data
    | None => fs t1 = fs s1 /\ fs t2 = fs s2
    end.
Proof.
  intros Hf1 Hf2 Hr1 Hr2 Hrun1 Hrun2.
  destruct (uniform_after_read raw) as (r & d & H).
  rewrite (H _ _ Hf1 Hr1) in Hrun1. rewrite (H _ _ Hf2 Hr2) in Hrun2.
  inversion Hrun1; inversion Hrun2; subst. split; [reflexivity|].
  exists d. unfold apply_delta, add_event, tried. cbn [fs stdout stderr log].
  rewrite !flat_map_app. simpl. rewrite !app_nil_r.
  repeat split.
  destruct (d_file d); split; rewrite ?lookup_insert_eq; reflexivity.
Qed.

End Determinism.


(** * Further properties of the scan and of the program *)

Section Verdicts.

Variable rt : runtime.
Variable raw : list byte.
Variable out : string.

Local Abbreviation iter := (iteration rt raw out).
Local Abbreviation outcome := (attempt_outcome rt raw out).
Local Abbreviation scan_to := (scan_outcome rt raw out).
Local Abbreviation skips := (attempt_skips rt raw out).
Local Abbreviation succeeds := (attempt_succeeds rt raw out).

Lemma outcome_skips k s r s1 :
  outcome k s r s1 ->
  skips k = match r with Raise e => recoverable e | Ok _ => false end.
Proof.
  inversion 1 as [e Hl|code e Hl Hc|code e Hl Hc Hd
                 |code data reason partial Hl Hc Hd Hw|code data Hl Hc Hd Hw];
    subst; unfold attempt_skips; rewrite Hl, ?Hc, ?Hd; reflexivity.
Qed.

Lemma outcome_succeeds k s r s1 :
  outcome k s r s1 ->
  succeeds k = match r with Ok (Some _) => true | _ => false end.
Proof.
  inversion 1 as [e Hl|code e Hl Hc|code e Hl Hc Hd
                 |code data reason partial Hl Hc Hd Hw|code data Hl Hc Hd Hw];
    subst; unfold attempt_succeeds; rewrite Hl, ?Hc, ?Hd, ?Hw; reflexivity.
Qed.

Lemma succeeds_spec k :
  succeeds k = true ->
  exists code data,
    marshal_loads rt (drop k raw) = Ok code /\
    create_fault rt out = None /\
    marshal_dumps rt code = Ok data /\
    write_fault rt out data = None.
Proof.
  unfold attempt_succeeds.
  destruct (marshal_loads rt (drop k raw)) as [code|] eqn:Hl; [|discriminate].
  destruct (create_fault rt out) eqn:Hc; [discriminate|].
  destruct (marshal_dumps rt code) as [data|] eqn:Hd; [|discriminate].
  destruct (write_fault rt out data) eqn:Hw; [discriminate|].
  intros _. exists code, data. auto.
Qed.

(** A skipped offset leaves no trace on the two streams and completes no
    dump; the output file is as it was, or was replaced. *)
Lemma skip_step k s :
  skips k = true ->
  exists s1,
    iter k s = (Ok None, s1) /\
    stdout s1 = stdout s /\ stderr s1 = stderr s /\
    tried (log s1) = tried (log s) ++ [k] /\
    dumps_done (log s1) = dumps_done (log s) /\
    (fs s1 = fs s \/ exists data, fs s1 = <[out := data]> (fs s)).
Proof.
  intros Hskip. rewrite iteration_unfold.
  pose proof (attempt_cases rt raw out k s) as Hk.
  destruct (attempt rt raw out k s) as [[r|e] s1]; simpl in Hk;
    rewrite (outcome_skips _ _ _ _ Hk) in Hskip; [discriminate|].
  rewrite Hskip. exists s1.
  destruct (attempt_raise_quiet _ _ _ _ _ _ _ Hk) as [Ho Hd].
  repeat split; auto.
  - exact (attempt_stderr _ _ _ _ _ _ _ Hk).
  - exact (attempt_tried _ _ _ _ _ _ _ Hk).
  - exact (attempt_file _ _ _ _ _ _ _ Hk).
Qed.

Lemma for_each_skip_any pre :
  forall rest s,
    forallb skips pre = true ->
    exists s1,
      for_each (pre ++ rest) iter s = for_each rest iter s1 /\
      stdout s1 = stdout s /\ stderr s1 = stderr s /\
      tried (log s1) = tried (log s) ++ pre /\
      dumps_done (log s1) = dumps_done (log s) /\
      (fs s1 = fs s \/ exists data, fs s1 = <[out := data]> (fs s)).
Proof.
  induction pre as [|j pre IH]; intros rest s Hall.
  - exists s. simpl. rewrite app_nil_r. auto 10.
  - simpl in Hall. apply andb_prop in Hall as [Hj Hpre].
    destruct (skip_step j s Hj) as (s0 & Hit & Ho0 & He0 & Ht0 & Hd0 & Hf0).
    destruct (IH rest s0 Hpre) as (s1 & Hrun & Ho & He & Ht & Hd & Hf).
    exists s1. rewrite <- app_comm_cons, for_each_cons, Hit, Hrun.
    rewrite Ho, He, Ht, Hd, Ho0, He0, Ht0, Hd0, <- app_assoc.
    repeat split; auto.
    destruct Hf0 as [E0|[d0 E0]], Hf as [E|[d E]];
      rewrite E, E0, ?insert_insert_eq; eauto.
Qed.

(** A scan that falls through skipped every offset. *)
Lemma scan_none_inv offsets s s' :
  scan_to offsets s (Ok None) s' -> forallb skips offsets = true.
Proof.
  intros H. remember (Ok None) as r eqn:Hr. revert Hr.
  induction H as [s|k rest s e s1 r s' Hk Hrec _ IH|k rest s e s1 Hk _
                 |k rest s s1 Hk]; intros Hr; try discriminate.
  - reflexivity.
  - simpl. rewrite (outcome_skips _ _ _ _ Hk), Hrec. simpl. auto.
Qed.

(** A scan that returns went through skipped offsets to one that
    extracted. *)
Lemma scan_return_inv offsets s v s' :
  scan_to offsets s (Ok (Some v)) s' ->
  exists pre k post,
    offsets = pre ++ k :: post /\
    forallb skips pre = true /\
    succeeds k = true /\
    stdout s' = stdout s ++ [msg_extracted k] /\
    tried (log s') = tried (log s) ++ pre ++ [k].
Proof.
  intros H. remember (Ok (Some v)) as r eqn:Hr. revert Hr.
  induction H as [s|k rest s e s1 r s' Hk Hrec _ IH|k rest s e s1 Hk _
                 |k rest s s1 Hk]; intros Hr; try discriminate.
  - destruct (IH Hr) as (pre & k' & post & -> & Hpre & Hk' & Ho & Ht).
    exists (k :: pre), k', post.
    destruct (attempt_raise_quiet _ _ _ _ _ _ _ Hk) as [Eo _].
    rewrite Ho, Ht, Eo, (attempt_tried _ _ _ _ _ _ _ Hk), <- app_assoc.
    simpl. rewrite (outcome_skips _ _ _ _ Hk), Hrec, Hpre. auto.
  - exists [], k, rest.
    rewrite (outcome_succeeds _ _ _ _ Hk), (attempt_tried _ _ _ _ _ _ _ Hk).
    destruct (attempt_return _ _ _ _ _ _ _ Hk) as (c & d & _ & _ & _ & _ & ->).
    auto.
Qed.

End Verdicts.

Lemma seq_split_inv pre :
  forall a n k post,
    seq a n = pre ++ k :: post ->
    pre = seq a (length pre) /\ k = a + length pre /\ length pre < n.
Proof.
  induction pre as [|x pre IH]; intros a n k post H.
  - destruct n as [|n]; [discriminate|]. simpl in H.
    injection H as <- _. simpl. repeat split; lia.
  - destruct n as [|n]; [discriminate|]. simpl in H.
    injection H as <- H. destruct (IH _ _ _ _ H) as (Hpre & -> & Hlen).
    simpl. rewrite <- Hpre. repeat split; lia.
Qed.

Section Program.

Variable rt : runtime.

Lemma iteration_write_fails raw out k s code data reason partial :
  marshal_loads rt (drop k raw) = Ok code ->
  create_fault rt out = None ->
  marshal_dumps rt code = Ok data ->
  write_fault rt out data = Some (reason, partial) ->
  iteration rt raw out k s =
  (Raise (Exc OSError reason),
   set_file out partial (after_truncate out k s)).
Proof.
  intros Hl Hc Hd Hw.
  unfold iteration, Py.try_except, attempt, loads, open_wb, dump, Py.bind,
    Py.lift, Py.modify, Py.raise.
  rewrite Hl. simpl. rewrite Hc. simpl. rewrite Hd. simpl. rewrite Hw.
  reflexivity.
Qed.

Lemma iteration_open_aborts raw out k s code e :
  marshal_loads rt (drop k raw) = Ok code ->
  create_fault rt out = Some e ->
  recoverable e = false ->
  iteration rt raw out k s = (Raise e, after_open out k s).
Proof.
  intros Hl Hc Hrec.
  unfold iteration, Py.try_except, attempt, loads, open_wb, Py.bind,
    Py.lift, Py.modify, Py.raise.
  rewrite Hl. simpl. rewrite Hc. simpl. rewrite Hrec. reflexivity.
Qed.

(** With an output path that cannot be opened no attempt changes a file or
    returns. *)
Lemma scan_unopenable raw out e0 offsets s r s' :
  create_fault rt out = Some e0 ->
  scan_outcome rt raw out offsets s r s' ->
  fs s' = fs s /\ forall v, r <> Ok (Some v).
Proof.
  intros Hc.
  assert (Hstep : forall k s r s1,
            attempt_outcome rt raw out k s r s1 ->
            fs s1 = fs s /\ forall v, r <> Ok (Some v)).
  { intros k s0 r0 s1 H.
    inversion H; subst; try congruence; split; try reflexivity;
      discriminate. }
  induction 1 as [s|k rest s e s1 r s' Hk _ _ IH|k rest s e s1 Hk _
                 |k rest s s1 Hk].
  - split; [reflexivity|discriminate].
  - destruct IH as [-> Hr]. destruct (Hstep _ _ _ _ Hk) as [-> _]. auto.
  - destruct (Hstep _ _ _ _ Hk) as [-> _]. split; [reflexivity|discriminate].
  - destruct (Hstep _ _ _ _ Hk) as [_ Hr].
    exfalso. apply (Hr 0%Z). reflexivity.
Qed.

(** The run that skips its way to an offset that extracts. *)
Lemma extract_success_at pyc out raw s k :
  read_fault rt pyc = None ->
  fs s !! pyc = Some raw ->
  k < Nat.min 32 (length raw) ->
  forallb (attempt_skips rt raw out) (seq 0 k) = true ->
  attempt_succeeds rt raw out k = true ->
  exists s' code data,
    extract_code_object rt pyc out s = (Ok 0%Z, s') /\
    marshal_loads rt (drop k raw) = Ok code /\
    marshal_dumps rt code = Ok data /\
    stdout s' = stdout s ++ [msg_extracted k] /\
    stderr s' = stderr s /\
    tried (log s') = tried (log s) ++ seq 0 (S k) /\
    fs s' = <[out := data]> (fs s).
Proof.
  intros Hf Hr Hk Hskip Hsucc.
  destruct (succeeds_spec _ _ _ _ Hsucc) as (code & data & Hl & Hc & Hd & Hw).
  destruct (for_each_skip_any rt raw out (seq 0 k)
              (k :: seq (S k) (Nat.min 32 (length raw) - S k))
              (add_event (EvOpenRead pyc) s) Hskip)
    as (s1 & Hrun & Ho & He & Ht & _ & Hfs).
  exists (after_print out k data s1), code, data.
  rewrite (extract_read_ok _ _ _ _ _ Hf Hr). unfold scan.
  rewrite (candidate_offsets_split _ _ Hk), Hrun, for_each_cons.
  rewrite (iteration_extracts _ _ _ _ _ _ _ Hl Hc Hd Hw).
  repeat split; auto.
  - unfold after_print, after_dump, after_truncate, after_open, after_loads,
      say, set_file, add_event. cbn [stdout]. rewrite Ho. reflexivity.
  - rewrite seq_S.
    unfold after_print, after_dump, after_truncate, after_open, after_loads,
      say, set_file, add_event, tried in *. cbn [log] in *.
    rewrite !flat_map_app, Ht, flat_map_app. simpl.
    rewrite !app_nil_r, <- app_assoc. reflexivity.
  - unfold after_print, after_dump, after_truncate, after_open, after_loads,
      say, set_file, add_event in *. cbn [fs] in *.
    destruct Hfs as [->|[d ->]]; rewrite ?insert_insert_eq; reflexivity.
Qed.

(** The run that skips every offset. *)
Lemma extract_exhausted pyc out raw s :
  read_fault rt pyc = None ->
  fs s !! pyc = Some raw ->
  forallb (attempt_skips rt raw out) (candidate_offsets raw) = true ->
  exists s',
    extract_code_object rt pyc out s = (Ok 1%Z, s') /\
    stdout s' = stdout s /\
    stderr s' = stderr s ++ [msg_failed] /\
    tried (log s') = tried (log s) ++ candidate_offsets raw /\
    dumps_done (log s') = dumps_done (log s) /\
    (fs s' = fs s \/ exists data, fs s' = <[out := data]> (fs s)).
Proof.
  intros Hf Hr Hskip.
  destruct (for_each_skip_any rt raw out (candidate_offsets raw) []
              (add_event (EvOpenRead pyc) s) Hskip)
    as (s1 & Hrun & Ho & He & Ht & Hd & Hfs).
  rewrite app_nil_r in Hrun.
  exists (say_err msg_failed s1).
  rewrite (extract_read_ok _ _ _ _ _ Hf Hr). unfold scan. rewrite Hrun.
  unfold say_err, add_event, tried, dumps_done in *.
  cbn [for_each Py.ret fs stdout stderr log] in *.
  rewrite Ho, He, Ht, Hd, !flat_map_app. simpl. rewrite !app_nil_r.
  repeat split; auto.
Qed.

(** Every run ends in one of two ways. *)
Lemma extract_summary pyc out s r s' :
  extract_code_object rt pyc out s = (r, s') ->
  (r = Ok 0%Z /\ stderr s' = stderr s /\
   exists k data,
     stdout s' = stdout s ++ [msg_extracted k] /\
     fs s' !! out = Some data) \/
  (r = Ok 1%Z /\ stdout s' = stdout s /\
   exists line, stderr s' = stderr s ++ [line]).
Proof.
  intros Hrun.
  destruct (extract_inv _ _ _ _ _ _ Hrun)
    as [(e & -> & ->)|(raw & r0 & s0 & _ & _ & Hsc & Hend)].
  { right. repeat split. now exists (msg_error e). }
  pose proof (scan_stderr _ _ _ _ _ _ _ Hsc) as Herr.
  destruct r0 as [[v|]|e]; destruct Hend as [-> ->].
  - left.
    destruct (scan_return _ _ _ _ _ _ _ Hsc)
      as (-> & k & code & data & _ & _ & _ & Hfs & Hout & _).
    repeat split; auto. exists k, data. split; [exact Hout|].
    rewrite Hfs. apply lookup_insert_eq.
  - right. destruct (scan_quiet _ _ _ _ _ _ _ Hsc) as [Hout _];
      [discriminate|].
    repeat split; auto. exists msg_failed. simpl. now rewrite Herr.
  - right. destruct (scan_quiet _ _ _ _ _ _ _ Hsc) as [Hout _];
      [discriminate|].
    repeat split; auto. exists (msg_error e). simpl. now rewrite Herr.
Qed.

End Program.

Lemma tried_app l1 l2 : tried (l1 ++ l2) = tried l1 ++ tried l2.
Proof. apply flat_map_app. Qed.

Lemma dumps_done_app l1 l2 :
  dumps_done (l1 ++ l2) = dumps_done l1 ++ dumps_done l2.
Proof. apply flat_map_app. Qed.

Lemma tried_map_loads' l : tried (map EvLoads l) = l.
Proof. induction l as [|o l IH]; simpl; congruence. Qed.

(** Unfold the state updates of the goal down to the fields of the state
    they started from. *)
Ltac fields :=
  repeat progress
    (unfold after_print, after_dump, after_truncate, after_open,
       after_loads, say, say_err, set_file, add_event, add_events;
     cbn [fs stdout stderr log]).

(** [for_each_skip_any] for the state just after the input was read. *)
Lemma skip_prefix_after_read rt raw out pyc pre rest s :
  forallb (attempt_skips rt raw out) pre = true ->
  exists s1,
    for_each (pre ++ rest) (iteration rt raw out)
      (add_event (EvOpenRead pyc) s) =
    for_each rest (iteration rt raw out) s1 /\
    stdout s1 = stdout s /\ stderr s1 = stderr s /\
    tried (log s1) = tried (log s) ++ pre /\
    dumps_done (log s1) = dumps_done (log s) /\
    (fs s1 = fs s \/ exists data, fs s1 = <[out := data]> (fs s)).
Proof.
  intros Hskip.
  destruct (for_each_skip_any rt raw out pre rest
              (add_event (EvOpenRead pyc) s) Hskip)
    as (s1 & Hrun & Ho & He & Ht & Hd & Hfs).
  exists s1. split; [exact Hrun|].
  rewrite Ho, He, Ht, Hd. fields.
  rewrite tried_app, dumps_done_app. cbn [tried dumps_done flat_map app].
  rewrite !app_nil_r. auto.
Qed.

Lemma write_opens_app l1 l2 :
  write_opens (l1 ++ l2) = write_opens l1 ++ write_opens l2.
Proof. apply flat_map_app. Qed.


Section SingleExtraction.

Variable rt : runtime.

(** When the output opens, an attempt opens it exactly if its slice
    deserialised. *)
Lemma attempt_opens_exact raw out k s r s1 :
  create_fault rt out = None ->
  attempt_outcome rt raw out k s r s1 ->
  write_opens (log s1) =
  write_opens (log s) ++ (if loads_ok rt raw k then [k] else []).
Proof.
  intros Hc H.
  inversion H as [e Hl|code e Hl Hc'|code e Hl _ Hd
                 |code data reason partial Hl _ Hd Hw|code data Hl _ Hd Hw];
    subst; try congruence; unfold loads_ok; rewrite Hl; fields;
    rewrite !write_opens_app; cbn [write_opens flat_map app];
    rewrite ?app_nil_r, <- ?app_assoc; reflexivity.
Qed.

Lemma scan_opens_exact raw out offsets s r s' :
  create_fault rt out = None ->
  scan_outcome rt raw out offsets s r s' ->
  exists n,
    tried (log s') = tried (log s) ++ firstn n offsets /\
    write_opens (log s') =
    write_opens (log s) ++ List.filter (loads_ok rt raw) (firstn n offsets).
Proof.
  intros Hc.
  induction 1 as [s|k rest s e s1 r s' Hk _ _ IH|k rest s e s1 Hk _
                 |k rest s s1 Hk].
  - exists 0. simpl. now rewrite !app_nil_r.
  - destruct IH as (n & Ht & Hw). exists (S n).
    rewrite Ht, Hw, (attempt_tried _ _ _ _ _ _ _ Hk),
      (attempt_opens_exact _ _ _ _ _ _ Hc Hk), <- !app_assoc.
    simpl. destruct (loads_ok rt raw k); auto.
  - exists 1.
    rewrite (attempt_tried _ _ _ _ _ _ _ Hk),
      (attempt_opens_exact _ _ _ _ _ _ Hc Hk).
    simpl. destruct (loads_ok rt raw k); auto.
  - exists 1.
    rewrite (attempt_tried _ _ _ _ _ _ _ Hk),
      (attempt_opens_exact _ _ _ _ _ _ Hc Hk).
    simpl. destruct (loads_ok rt raw k); auto.
Qed.

(** Everything a run that returns 0 has done. *)
Lemma extract_success_inv pyc out s s' :
  extract_code_object rt pyc out s = (Ok 0%Z, s') ->
  exists raw k code data,
    fs s !! pyc = Some raw /\
    k < Nat.min 32 (length raw) /\
    forallb (attempt_skips rt raw out) (seq 0 k) = true /\
    marshal_loads rt (drop k raw) = Ok code /\
    marshal_dumps rt code = Ok data /\
    stdout s' = stdout s ++ [msg_extracted k] /\
    stderr s' = stderr s /\
    fs s' = <[out := data]> (fs s) /\
    tried (log s') = tried (log s) ++ seq 0 (S k) /\
    dumps_done (log s') = dumps_done (log s) ++ [(k, data)] /\
    write_opens (log s') =
      write_opens (log s) ++ List.filter (loads_ok rt raw) (seq 0 (S k)).
Proof.
  intros Hrun.
  destruct (extract_inv _ _ _ _ _ _ Hrun)
    as [(e & Hbad & _)|(raw & r0 & s0 & Hf & Hr & Hsc & Hend)];
    [discriminate|].
  destruct r0 as [[v|]|e]; destruct Hend as [Hv ->]; try discriminate.
  destruct (scan_return_inv _ _ _ _ _ _ _ Hsc)
    as (pre & k & post & Hsplit & Hpre & Hk & _).
  unfold candidate_offsets, range0 in Hsplit.
  destruct (seq_split_inv _ _ _ _ _ Hsplit) as (Hseq & Hk' & Hlen).
  simpl in Hk'. subst k. rewrite Hseq in Hpre.
  destruct (extract_success_at _ _ _ _ _ _ Hf Hr Hlen Hpre Hk)
    as (s1 & code & data & Hrun' & Hl & Hd & Ho & He & Ht & Hfs).
  assert (s1 = s0) as -> by congruence.
  destruct (succeeds_spec _ _ _ _ Hk) as (_ & _ & _ & Hc & _).
  exists raw, (length pre), code, data.
  repeat split; auto.
  - destruct (scan_return _ _ _ _ _ _ _ Hsc)
      as (_ & k2 & code2 & data2 & _ & Hl2 & Hd2 & _ & Ho2 & Hdd).
    rewrite Ho in Ho2. unfold add_event in Ho2. cbn [stdout] in Ho2.
    apply app_inv_head, list_one_inj, msg_extracted_inj in Ho2. subst k2.
    rewrite Hl in Hl2. injection Hl2 as <-.
    rewrite Hd in Hd2. injection Hd2 as <-.
    rewrite Hdd. fields. rewrite dumps_done_app.
    cbn [dumps_done flat_map app]. now rewrite app_nil_r.
  - destruct (scan_opens_exact _ _ _ _ _ _ Hc Hsc) as (n & Ht' & Hw).
    assert (Hfirst : firstn n (candidate_offsets raw) = seq 0 (S (length pre))).
    { revert Ht' Ht. fields. rewrite tried_app.
      cbn [tried flat_map app]. rewrite app_nil_r.
      intros Ht' Ht. rewrite Ht in Ht'. now apply app_inv_head in Ht'. }
    rewrite Hw, Hfirst. fields. rewrite write_opens_app.
    cbn [write_opens flat_map app]. now rewrite app_nil_r.
Qed.



End SingleExtraction.

Section ProgramProperties.

Variable rt : runtime.

(** X1.  A run changes no file other than the one at the output path; in
    particular the input file is left as it was unless it is the output. *)
Theorem X1_only_output_path_changes pyc out s r s' p :
  extract_code_object rt pyc out s = (r, s') ->
  p <> out ->
  fs s' !! p = fs s !! p.
Proof.
  intros Hrun Hp.
  destruct (extract_inv _ _ _ _ _ _ Hrun)
    as [(e & _ & ->)|(raw & r0 & s0 & _ & _ & Hsc & Hend)];
    [reflexivity|].
  assert (fs s' = fs s0) as ->.
  { destruct r0 as [[v|]|e]; destruct Hend as [_ ->]; reflexivity. }
  exact (scan_frame _ _ _ _ _ _ _ _ Hsc Hp).
Qed.

(** X2.  When the input cannot be opened or read, whatever the class of the
    exception (also a [ValueError], which the inner handler would have
    skipped), the function prints ['[-] Error: ' + str(e)] on standard
    error and returns 1; [marshal.loads] is never called and no file is
    opened for writing or changed. *)
Theorem X2_unreadable_input_is_an_error pyc out s e :
  read_fault rt pyc = Some e ->
  exists s',
    extract_code_object rt pyc out s = (Ok 1%Z, s') /\
    stdout s' = stdout s /\
    stderr s' = stderr s ++ [msg_error e] /\
    fs s' = fs s /\
    log s' = log s ++ [EvOpenRead pyc].
Proof.
  intros Hf. rewrite (extract_read_refused _ _ _ _ _ Hf).
  eexists. split; [reflexivity|]. repeat split.
Qed.

(** X3.  For a readable input the function returns 0 exactly when some
    offset [k < min(32, len(raw))] runs to the end of the [try] body and
    every offset before it raised an exception the inner handler catches;
    the success line then names that [k], and [marshal.loads] was called
    at [0..k] and at no other offset. *)
Theorem X3_success_characterised pyc out raw s r s' :
  read_fault rt pyc = None ->
  fs s !! pyc = Some raw ->
  extract_code_object rt pyc out s = (r, s') ->
  (r = Ok 0%Z <->
   exists k,
     k < Nat.min 32 (length raw) /\
     forallb (attempt_skips rt raw out) (seq 0 k) = true /\
     attempt_succeeds rt raw out k = true) /\
  (forall k,
     k < Nat.min 32 (length raw) ->
     forallb (attempt_skips rt raw out) (seq 0 k) = true ->
     attempt_succeeds rt raw out k = true ->
     stdout s' = stdout s ++ [msg_extracted k] /\
     tried (log s') = tried (log s) ++ seq 0 (S k)).
Proof.
  intros Hf Hr Hrun. split; [split|].
  - intros ->.
    destruct (extract_inv_read _ _ _ _ _ _ _ Hf Hr Hrun)
      as (r0 & s0 & Hsc & Hend).
    destruct r0 as [[v|]|e]; destruct Hend as [Hv _]; try discriminate.
    destruct (scan_return_inv _ _ _ _ _ _ _ Hsc)
      as (pre & k & post & Hsplit & Hpre & Hk & _).
    unfold candidate_offsets, range0 in Hsplit.
    destruct (seq_split_inv _ _ _ _ _ Hsplit) as (Hseq & -> & Hlen).
    exists (length pre). rewrite <- Hseq. auto.
  - intros (k & Hk & Hskip & Hsucc).
    destruct (extract_success_at _ _ _ _ _ _ Hf Hr Hk Hskip Hsucc)
      as (s1 & _ & _ & Hrun' & _).
    congruence.
  - intros k Hk Hskip Hsucc.
    destruct (extract_success_at _ _ _ _ _ _ Hf Hr Hk Hskip Hsucc)
      as (s1 & _ & _ & Hrun' & _ & _ & Ho & _ & Ht & _).
    assert (s1 = s') as -> by congruence. auto.
Qed.

(** X4.  For a readable input the exhaustion message is printed exactly
    when every offset below [min(32, len(raw))] raised an exception the
    inner handler catches, at the load or while writing; the function then
    returns 1 with nothing on standard output, having tried every such
    offset and completed no dump. *)
Theorem X4_exhaustion_characterised pyc out raw s r s' :
  read_fault rt pyc = None ->
  fs s !! pyc = Some raw ->
  extract_code_object rt pyc out s = (r, s') ->
  (stderr s' = stderr s ++ [msg_failed] <->
   forallb (attempt_skips rt raw out) (candidate_offsets raw) = true) /\
  (forallb (attempt_skips rt raw out) (candidate_offsets raw) = true ->
   r = Ok 1%Z /\
   stdout s' = stdout s /\
   tried (log s') = tried (log s) ++ candidate_offsets raw /\
   dumps_done (log s') = dumps_done (log s)).
Proof.
  intros Hf Hr Hrun. split; [split|].
  - intros Hline.
    destruct (extract_inv_read _ _ _ _ _ _ _ Hf Hr Hrun)
      as (r0 & s0 & Hsc & Hend).
    pose proof (scan_stderr _ _ _ _ _ _ _ Hsc) as Herr.
    destruct r0 as [[v|]|e]; destruct Hend as [_ ->].
    + rewrite Herr in Hline. simpl in Hline.
      now apply app_one_not_nil in Hline.
    + exact (scan_none_inv _ _ _ _ _ _ Hsc).
    + simpl in Hline. rewrite Herr in Hline. simpl in Hline.
      apply app_inv_head, list_one_inj in Hline.
      now apply msg_error_not_failed in Hline.
  - intros Hskip.
    destruct (extract_exhausted _ _ _ _ _ Hf Hr Hskip)
      as (s1 & Hrun' & _ & He & _).
    assert (s1 = s') as -> by congruence. exact He.
  - intros Hskip.
    destruct (extract_exhausted _ _ _ _ _ Hf Hr Hskip)
      as (s1 & Hrun' & Ho & _ & Ht & Hd & _).
    assert (s1 = s') as -> by congruence.
    split; [congruence|]. auto.
Qed.

(** X5.  No offset at or beyond [min(32, len(raw))] is ever passed to
    [marshal.loads] or used to open the output: every offset tried or
    opened in a run is below 32 and inside [raw], so the slice
    [raw[offset:]] is never empty. *)
Theorem X5_offsets_stay_below_the_cap pyc out raw s r s' :
  fs s !! pyc = Some raw ->
  extract_code_object rt pyc out s = (r, s') ->
  exists new_tried new_opens,
    tried (log s') = tried (log s) ++ new_tried /\
    write_opens (log s') = write_opens (log s) ++ new_opens /\
    Forall (fun o => o < 32 /\ o < length raw /\ drop o raw <> [])
      new_tried /\
    Forall (fun o => o < 32 /\ o < length raw) new_opens.
Proof.
  intros Hr Hrun.
  destruct (extract_inv _ _ _ _ _ _ Hrun)
    as [(e & _ & ->)|(raw' & r0 & s0 & _ & Hr' & Hsc & Hend)].
  { exists [], []. effects. auto. }
  assert (raw' = raw) as -> by congruence.
  assert (log s' = log s0) as ->.
  { destruct r0 as [[v|]|e]; destruct Hend as [_ ->]; reflexivity. }
  destruct (scan_tried _ _ _ _ _ _ _ Hsc) as (n & Hn & Ht & _).
  destruct (scan_opens _ _ _ _ _ _ _ Hsc) as (opened & Ho & Hall & _).
  unfold candidate_offsets, range0 in *.
  rewrite length_seq in Hn. rewrite take_seq in Ht.
  exists (seq 0 (Nat.min n (Nat.min 32 (length raw)))), opened.
  repeat split.
  - rewrite Ht. unfold add_event, tried. cbn [log].
    rewrite flat_map_app. simpl. now rewrite app_nil_r.
  - rewrite Ho. unfold add_event, write_opens. cbn [log].
    rewrite flat_map_app. simpl. now rewrite app_nil_r.
  - apply List.Forall_forall. intros o Ho'. apply in_seq in Ho'.
    assert (o < length raw) by lia. repeat split; try lia.
    intros Hnil. apply (f_equal (@length byte)) in Hnil.
    rewrite length_drop in Hnil. simpl in Hnil. lia.
  - eapply Forall_impl; [exact Hall|]. cbv beta. intros o [Hin _].
    apply in_seq in Hin. lia.
Qed.

(** X6.  If the write of the serialised object fails (an [OSError] from
    [write] or from the flush on close) at the first offset that is not
    skipped, the function returns 1 with ['[-] Error: ' + reason] on
    standard error and nothing on standard output, tries no later offset,
    and leaves the output file holding whatever the failed write left: its
    earlier contents are gone and nothing removes the partial file. *)
Theorem X6_failed_write_leaves_partial_output
    pyc out raw s k code data reason partial :
  read_fault rt pyc = None ->
  fs s !! pyc = Some raw ->
  k < Nat.min 32 (length raw) ->
  forallb (attempt_skips rt raw out) (seq 0 k) = true ->
  marshal_loads rt (drop k raw) = Ok code ->
  create_fault rt out = None ->
  marshal_dumps rt code = Ok data ->
  write_fault rt out data = Some (reason, partial) ->
  exists s',
    extract_code_object rt pyc out s = (Ok 1%Z, s') /\
    stdout s' = stdout s /\
    stderr s' = stderr s ++ [("[-] Error: " ++ reason)%string] /\
    fs s' = <[out := partial]> (fs s) /\
    tried (log s') = tried (log s) ++ seq 0 (S k) /\
    dumps_done (log s') = dumps_done (log s).
Proof.
  intros Hf Hr Hk Hskip Hl Hc Hd Hw.
  destruct (skip_prefix_after_read rt raw out pyc (seq 0 k)
              (k :: seq (S k) (Nat.min 32 (length raw) - S k)) s Hskip)
    as (s1 & Hrun & Ho & He & Ht & Hdd & Hfs).
  exists (say_err (msg_error (Exc OSError reason))
            (set_file out partial (after_truncate out k s1))).
  rewrite (extract_read_ok _ _ _ _ _ Hf Hr). unfold scan.
  rewrite (candidate_offsets_split _ _ Hk), Hrun, for_each_cons.
  rewrite (iteration_write_fails _ _ _ _ _ _ _ _ _ Hl Hc Hd Hw).
  split; [reflexivity|]. fields.
  rewrite !tried_app, !dumps_done_app, Ho, He, Ht, Hdd, seq_S.
  cbn [tried dumps_done flat_map app]. rewrite !app_nil_r, <- app_assoc.
  repeat split.
  destruct Hfs as [->|[d ->]]; rewrite ?insert_insert_eq; reflexivity.
Qed.

(** X7.  With an output path that [open(.., 'wb')] refuses, no run returns
    0 or changes any file.  If the refusal is not one of the three caught
    exceptions (a [PermissionError], say), the first offset that
    deserialises ends the scan and the function prints
    ['[-] Error: ' + str(e)]. *)
Theorem X7_refused_output_never_succeeds pyc out s r s' e :
  create_fault rt out = Some e ->
  extract_code_object rt pyc out s = (r, s') ->
  r = Ok 1%Z /\
  fs s' = fs s /\
  stdout s' = stdout s /\
  (recoverable e = false ->
   forall raw k,
     read_fault rt pyc = None ->
     fs s !! pyc = Some raw ->
     k < Nat.min 32 (length raw) ->
     forallb (loads_skips rt raw) (seq 0 k) = true ->
     loads_ok rt raw k = true ->
     stderr s' = stderr s ++ [msg_error e] /\
     tried (log s') = tried (log s) ++ seq 0 (S k)).
Proof.
  intros Hc Hrun. split; [|split; [|split]].
  - destruct (extract_summary _ _ _ _ _ _ Hrun)
      as [(-> & _)|(-> & _)]; [|reflexivity].
    exfalso.
    destruct (extract_inv _ _ _ _ _ _ Hrun)
      as [(e0 & Hbad & _)|(raw & r0 & s0 & _ & _ & Hsc & Hend)];
      [discriminate|].
    destruct (scan_unopenable _ _ _ _ _ _ _ _ Hc Hsc) as [_ Hnot].
    destruct r0 as [[v|]|e0]; destruct Hend as [Hv _]; try discriminate.
    now apply (Hnot v).
  - destruct (extract_inv _ _ _ _ _ _ Hrun)
      as [(e0 & _ & ->)|(raw & r0 & s0 & _ & _ & Hsc & Hend)];
      [reflexivity|].
    destruct (scan_unopenable _ _ _ _ _ _ _ _ Hc Hsc) as [Hfs _].
    destruct r0 as [[v|]|e0]; destruct Hend as [_ ->]; exact Hfs.
  - destruct (extract_summary _ _ _ _ _ _ Hrun)
      as [(Hr0 & _)|(_ & Ho & _)]; [|exact Ho].
    exfalso.
    destruct (extract_inv _ _ _ _ _ _ Hrun)
      as [(e0 & Hbad & _)|(raw & r0 & s0 & _ & _ & Hsc & Hend)];
      [congruence|].
    destruct (scan_unopenable _ _ _ _ _ _ _ _ Hc Hsc) as [_ Hnot].
    destruct r0 as [[v|]|e0]; destruct Hend as [Hv _]; congruence.
  - intros Hrec raw k Hf Hr Hk Hskip Hok.
    unfold loads_ok in Hok.
    destruct (marshal_loads rt (drop k raw)) as [code|] eqn:Hl;
      [|discriminate].
    assert (Hall : Forall (fun j => loads_skips rt raw j = true) (seq 0 k)).
    { apply List.Forall_forall. intros j Hj.
      rewrite forallb_forall in Hskip. auto. }
    rewrite (extract_read_ok _ _ _ _ _ Hf Hr) in Hrun. unfold scan in Hrun.
    rewrite (candidate_offsets_split _ _ Hk) in Hrun.
    rewrite for_each_skip, for_each_cons in Hrun by assumption.
    rewrite (iteration_open_aborts _ _ _ _ _ _ _ Hl Hc Hrec) in Hrun.
    inversion Hrun; subst r s'. clear Hrun. fields.
    rewrite !tried_app, tried_map_loads', seq_S.
    cbn [tried flat_map app]. rewrite <- !app_assoc. auto.
Qed.

End ProgramProperties.

Section ProgramComposition.

Variable rt : runtime.

Lemma refused_output_keeps_files pyc out s r s' e :
  create_fault rt out = Some e ->
  extract_code_object rt pyc out s = (r, s') ->
  fs s' = fs s.
Proof.
  intros Hc Hrun.
  destruct (extract_inv _ _ _ _ _ _ Hrun)
    as [(e0 & _ & ->)|(raw & r0 & s0 & _ & _ & Hsc & Hend)];
    [reflexivity|].
  destruct (scan_unopenable _ _ _ _ _ _ _ _ Hc Hsc) as [Hfs _].
  destruct r0 as [[v|]|e0]; destruct Hend as [_ ->]; exact Hfs.
Qed.

(** X8.  If [open(output_path, 'wb')] raises one of the three caught
    exceptions (a [ValueError] for a path with an embedded null byte, say),
    every offset that deserialises is skipped like one that does not: when
    no load fails otherwise, the function tries every offset, prints the
    exhaustion message and returns 1, although valid objects were found,
    and no file is created or changed. *)
Theorem X8_caught_open_error_reads_as_exhaustion pyc out raw s e :
  read_fault rt pyc = None ->
  fs s !! pyc = Some raw ->
  create_fault rt out = Some e ->
  recoverable e = true ->
  forallb (fun j => loads_ok rt raw j || loads_skips rt raw j)
    (candidate_offsets raw) = true ->
  exists s',
    extract_code_object rt pyc out s = (Ok 1%Z, s') /\
    stdout s' = stdout s /\
    stderr s' = stderr s ++ [msg_failed] /\
    fs s' = fs s /\
    tried (log s') = tried (log s) ++ candidate_offsets raw.
Proof.
  intros Hf Hr Hc Hrec Hall.
  assert (Hskip : forallb (attempt_skips rt raw out) (candidate_offsets raw)
                  = true).
  { rewrite forallb_forall in *. intros j Hj. specialize (Hall j Hj).
    unfold attempt_skips, loads_ok, loads_skips in *.
    destruct (marshal_loads rt (drop j raw)) as [code|e'].
    - now rewrite Hc.
    - exact Hall. }
  destruct (extract_exhausted _ _ _ _ _ Hf Hr Hskip)
    as (s' & Hrun & Ho & He & Ht & _).
  exists s'. repeat split; auto.
  exact (refused_output_keeps_files _ _ _ _ _ _ Hc Hrun).
Qed.

(** X9.  Running the extractor on a file it produced finds the object at
    offset 0 and writes the same bytes again, provided [marshal] loads a
    dump back to the object dumped and never dumps to an empty string, and
    the second output can be written. *)
Theorem X9_extracting_an_extracted_file pyc out out2 s s1 :
  (forall code data,
     marshal_dumps rt code = Ok data ->
     data <> [] /\ marshal_loads rt data = Ok code) ->
  extract_code_object rt pyc out s = (Ok 0%Z, s1) ->
  read_fault rt out = None ->
  create_fault rt out2 = None ->
  (forall data, write_fault rt out2 data = None) ->
  exists s2 data,
    extract_code_object rt out out2 s1 = (Ok 0%Z, s2) /\
    stdout s2 = stdout s1 ++ [msg_extracted 0] /\
    fs s1 !! out = Some data /\
    fs s2 !! out2 = Some data.
Proof.
  intros Hlaw Hrun Hf Hc Hw.
  destruct (extract_inv _ _ _ _ _ _ Hrun)
    as [(e & Hbad & _)|(raw & r0 & s0 & _ & _ & Hsc & Hend)];
    [discriminate|].
  destruct r0 as [[v|]|e]; destruct Hend as [Hv ->]; try discriminate.
  destruct (scan_return _ _ _ _ _ _ _ Hsc)
    as (_ & k & code & data & _ & _ & Hd & Hfs & _).
  destruct (Hlaw _ _ Hd) as [Hne Hl].
  assert (Hr : fs s0 !! out = Some data).
  { rewrite Hfs. apply lookup_insert_eq. }
  assert (Hk : 0 < Nat.min 32 (length data)).
  { destruct data; [congruence|]. simpl. lia. }
  assert (Hsucc : attempt_succeeds rt data out2 0 = true).
  { unfold attempt_succeeds. rewrite drop_0, Hl, Hc, Hd, Hw. reflexivity. }
  destruct (extract_success_at rt out out2 data s0 0 Hf Hr Hk eq_refl Hsucc)
    as (s2 & code' & data' & Hrun2 & Hl' & Hd' & Ho & _ & _ & Hfs2).
  rewrite drop_0, Hl in Hl'. injection Hl' as <-.
  rewrite Hd in Hd'. injection Hd' as <-.
  exists s2, data. repeat split; auto.
  rewrite Hfs2. apply lookup_insert_eq.
Qed.

(** X10.  Taking [print] to succeed, the status the program passes to
    [sys.exit] is 0 or 1 for every argument list, and exactly one line is
    printed: on standard output when the status is 0, on standard error
    when it is 1.  Status 0 is reached only with exactly two arguments,
    and the file named by the second then holds the bytes [marshal.dump]
    gave for the object [marshal.loads] returned for the first file at the
    offset the success line names. *)
Theorem X10_main_exit_status argv s r s' :
  main rt argv s = (r, s') ->
  (r = Ok 0%Z /\
   stderr s' = stderr s /\
   exists prog input output raw k code data,
     argv = [prog; input; output] /\
     fs s !! input = Some raw /\
     marshal_loads rt (drop k raw) = Ok code /\
     marshal_dumps rt code = Ok data /\
     fs s' !! output = Some data /\
     stdout s' =
       stdout s ++
       [("[+] Code object extracted (header_offset="
         ++ str_of_nat k ++ " bytes)")%string]) \/
  (r = Ok 1%Z /\
   stdout s' = stdout s /\
   exists line, stderr s' = stderr s ++ [line]).
Proof.
  intros Hrun.
  destruct argv as [|prog [|input [|output [|extra rest]]]];
    try (right; inversion Hrun; repeat split; now exists msg_usage).
  simpl in Hrun.
  destruct (extract_summary _ _ _ _ _ _ Hrun) as [(-> & _)|Hfail].
  - left.
    destruct (extract_success_inv _ _ _ _ _ Hrun)
      as (raw & k & code & data & Hr & _ & _ & Hl & Hd & Ho & He & Hfs & _).
    split; [reflexivity|]. split; [exact He|].
    exists prog, input, output, raw, k, code, data.
    repeat split; auto. rewrite Hfs. apply lookup_insert_eq.
  - right. exact Hfail.
Qed.

End ProgramComposition.


(** * The properties on concrete runs *)

Section Examples.

Import Toy.

Local Abbreviation run := (extract_code_object toy).

(** C1 as stated fails.  Offset 0 is the first valid offset of
    [plain_none], yet with an output path in a directory that does not
    exist the function returns 1 and writes nothing.  Offset 21 is the
    first valid offset of [bad_code], yet the [SystemError] at offset 0
    ends the scan and the function returns 1. *)
Lemma C1_counterexample :
  (all_modelled plain_none = true /\
   first_valid_offset toy plain_none 0 = true /\
   fst (run "in.pyc" "/nonexistent/out.bin" (start plain_none)) = Ok 1%Z /\
   stderr (snd (run "in.pyc" "/nonexistent/out.bin" (start plain_none))) =
     ["[-] Error: [Errno 2] No such file or directory: '/nonexistent/out.bin'"
      %string] /\
   fs (snd (run "in.pyc" "/nonexistent/out.bin" (start plain_none)))
     !! "/nonexistent/out.bin" = None) /\
  (all_modelled bad_code = true /\
   first_valid_offset toy bad_code 21 = true /\
   fst (run "in.pyc" "out.bin" (start bad_code)) = Ok 1%Z /\
   stdout (snd (run "in.pyc" "out.bin" (start bad_code))) = [] /\
   fs (snd (run "in.pyc" "out.bin" (start bad_code))) !! "out.bin" = None).
Proof. vm_compute. repeat split. Qed.

Lemma C1_witness :
  first_valid_offset toy sample 2 = true /\
  fst (run "in.pyc" "out.bin" (start sample)) = Ok 0%Z /\
  stdout (snd (run "in.pyc" "out.bin" (start sample))) =
    ["[+] Code object extracted (header_offset=2 bytes)"%string] /\
  fs (snd (run "in.pyc" "out.bin" (start sample))) !! "out.bin" =
    Some [x4e].
Proof.
  pose proof (C1_first_valid_offset_is_extracted toy "in.pyc" "out.bin"
                sample 2 (start sample)
                (fst (run "in.pyc" "out.bin" (start sample)))
                (snd (run "in.pyc" "out.bin" (start sample)))
                eq_refl eq_refl eq_refl eq_refl) as [_ H].
  assert (Hskip : Forall (fun j => loads_skips toy sample j = true) (seq 0 2)).
  { repeat constructor. }
  destruct (H Hskip VNone [x4e] eq_refl eq_refl eq_refl eq_refl)
    as (Hr & Hout & _ & Hfs & _).
  split; [reflexivity|]. split; [exact Hr|]. split; [exact Hout|].
  rewrite Hfs. apply lookup_insert_eq.
Defined.

(** C2 as stated fails: no offset below 32 of [bad_code_only]
    deserialises, yet the line printed is the error line of the
    [SystemError] raised at offset 0, not the exhaustion message. *)
Lemma C2_counterexample :
  all_modelled bad_code_only = true /\
  no_valid_offset toy bad_code_only = true /\
  fst (run "in.pyc" "out.bin" (start bad_code_only)) = Ok 1%Z /\
  stderr (snd (run "in.pyc" "out.bin" (start bad_code_only))) =
    ["[-] Error: ../Objects/codeobject.c:250: bad argument to internal function"
     %string] /\
  stderr (snd (run "in.pyc" "out.bin" (start bad_code_only))) <>
    ["[-] Failed to extract valid code object"%string].
Proof. vm_compute. repeat split. discriminate. Qed.

Lemma C2_witness :
  no_valid_offset toy garbage = true /\
  fst (run "in.pyc" "out.bin" (start garbage)) = Ok 1%Z /\
  fs (snd (run "in.pyc" "out.bin" (start garbage))) = disk "in.pyc" garbage /\
  stderr (snd (run "in.pyc" "out.bin" (start garbage))) = [msg_failed].
Proof.
  pose proof (C2_no_valid_offset_fails_without_output toy "in.pyc" "out.bin"
                garbage (start garbage)
                (fst (run "in.pyc" "out.bin" (start garbage)))
                (snd (run "in.pyc" "out.bin" (start garbage)))
                eq_refl eq_refl eq_refl eq_refl)
    as (Hr & Hfs & _ & _ & _ & _ & Hskip & _).
  assert (Hall : Forall (fun j => loads_skips toy garbage j = true)
                   (candidate_offsets garbage)).
  { repeat constructor. }
  destruct (Hskip Hall) as [Herr _].
  repeat split; assumption.
Defined.

Lemma C3_witness :
  (exists s',
     run "missing.pyc" "out.bin" (start sample) = (Ok 1%Z, s') /\
     stderr s' =
       ["[-] Error: [Errno 2] No such file or directory: 'missing.pyc'"
        %string]) /\
  for_each [0; 1; 2] (iteration toy garbage "out.bin") (start garbage) =
  for_each [1; 2] (iteration toy garbage "out.bin")
    (after_loads 0 (start garbage)) /\
  for_each [0; 1; 2] (iteration toy bad_code "out.bin") (start bad_code) =
    (Raise bad_internal_call, after_loads 0 (start bad_code)) /\
  (exists s',
     run "in.pyc" "out.bin" (start bad_code) = (Ok 1%Z, s') /\
     stdout s' = [] /\
     stderr s' =
       ["[-] Error: ../Objects/codeobject.c:250: bad argument to internal function"
        %string]).
Proof.
  destruct (C3_error_triage toy) as (_ & Hstep & Hfatal & Hmissing).
  split; [|split; [|split]].
  - destruct (Hmissing "missing.pyc" "out.bin" (start sample)
                eq_refl eq_refl) as (s' & Hrun & _ & He & _).
    exists s'. split; [exact Hrun|exact He].
  - destruct (Hstep garbage "out.bin" 0 [1; 2] (start garbage)
                unknown_code (after_loads 0 (start garbage)) eq_refl)
      as (_ & _ & Hskip & _).
    exact (Hskip eq_refl).
  - destruct (Hstep bad_code "out.bin" 0 [1; 2] (start bad_code)
                bad_internal_call (after_loads 0 (start bad_code)) eq_refl)
      as (_ & _ & _ & Habort).
    exact (Habort eq_refl).
  - destruct (Hfatal "in.pyc" "out.bin" bad_code (start bad_code)
                bad_internal_call
                (after_loads 0 (add_event (EvOpenRead "in.pyc")
                                  (start bad_code)))
                eq_refl eq_refl eq_refl)
      as (_ & _ & _ & _ & s' & Hrun & Ho & He & _).
    exists s'. split; [exact Hrun|]. split; [exact Ho|exact He].
Defined.

Lemma toy_round_trips code data :
  toy_dumps code = Ok data ->
  exists code', toy_loads data = Ok code' /\ code' = code.
Proof.
  destruct code; simpl; intros H; injection H as <-;
    eexists; split; reflexivity.
Defined.

Lemma C4_witness :
  fst (run "in.pyc" "out.bin" (start sample)) = Ok 0%Z /\
  exists data,
    fs (snd (run "in.pyc" "out.bin" (start sample))) !! "out.bin" =
      Some data /\
    toy_loads data = toy_loads (drop 2 sample).
Proof.
  split; [reflexivity|].
  destruct (C4_output_round_trips toy eq "in.pyc" "out.bin" sample 2
              (start sample) (snd (run "in.pyc" "out.bin" (start sample)))
              toy_round_trips eq_refl eq_refl eq_refl)
    as (code & data & code' & _ & Hl & _ & Hfs & Hl' & Heq).
  exists data. split; [exact Hfs|].
  change (marshal_loads toy data = marshal_loads toy (drop 2 sample)).
  rewrite Hl, Hl', Heq. reflexivity.
Defined.

(** C5 as stated fails: [plain_none] has two bytes and loads at offset 0,
    so the run returns there and offset 1 is never tried. *)
Lemma C5_counterexample :
  all_modelled plain_none = true /\
  length plain_none < 32 /\
  fst (run "in.pyc" "out.bin" (start plain_none)) = Ok 0%Z /\
  tried (log (snd (run "in.pyc" "out.bin" (start plain_none)))) = [0] /\
  tried (log (snd (run "in.pyc" "out.bin" (start plain_none)))) <>
    seq 0 (length plain_none).
Proof.
  split; [reflexivity|]. split; [simpl; lia|]. split; [reflexivity|].
  split; [reflexivity|]. vm_compute. discriminate.
Qed.

Lemma C5_witness :
  length garbage < 32 /\
  candidate_offsets garbage = [0; 1; 2] /\
  tried (log (snd (run "in.pyc" "out.bin" (start garbage)))) = [0; 1; 2].
Proof.
  assert (Hlen : length garbage < 32) by (simpl; lia).
  destruct (C5_short_input_scan_bound toy "in.pyc" "out.bin" garbage
              (start garbage)
              (fst (run "in.pyc" "out.bin" (start garbage)))
              (snd (run "in.pyc" "out.bin" (start garbage)))
              eq_refl eq_refl Hlen eq_refl)
    as (Hcand & n & _ & Ht & _ & Hfull).
  split; [exact Hlen|]. split; [exact Hcand|].
  rewrite Ht, (Hfull eq_refl). reflexivity.
Defined.


Lemma C7_witness :
  exists s',
    run_main ["marshal_extract.py"; "in.pyc"] (start sample) =
      (Ok 1%Z, s') /\
    stderr s' =
      ["Usage: marshal_extract.py <input.pyc> <output.marshaled>"%string] /\
    fs s' = disk "in.pyc" sample.
Proof.
  assert (Hlen : length ["marshal_extract.py"; "in.pyc"] <> 3)
    by (simpl; lia).
  destruct (C7_wrong_argument_count_prints_usage toy
              ["marshal_extract.py"; "in.pyc"] (start sample) Hlen)
    as (s' & Hrun & _ & He & Hfs & _).
  exists s'. repeat split; assumption.
Defined.

Lemma C8_witness :
  (exists s',
     extract_code_object picky "in.pyc" "out.bin" (start ellipsis_only) =
       (Ok 1%Z, s') /\
     stderr s' = [msg_failed] /\
     fs s' !! "out.bin" = Some []) /\
  (exists s',
     extract_code_object picky "in.pyc" "out.bin"
       (start ellipsis_then_none) = (Ok 0%Z, s') /\
     write_opens (log s') = [0; 1] /\
     fs s' !! "out.bin" = Some [x4e]) /\
  (exists s1,
     for_each [0; 1] (iteration toy plain_none nul_path) (start plain_none) =
     for_each [1] (iteration toy plain_none nul_path) s1 /\
     write_opens (log s1) = [0] /\
     fs s1 = disk "in.pyc" plain_none).
Proof.
  split; [|split].
  - destruct (C8_write_stage_errors_continue_the_scan picky)
      as (_ & Hexhaust & _).
    assert (Hall : Forall (fun j => loads_skips picky ellipsis_only j = true
                                    \/ dump_skips picky ellipsis_only j = true)
                     (candidate_offsets ellipsis_only)).
    { repeat (constructor;
        [first [left; reflexivity | right; reflexivity]|]).
      constructor. }
    destruct (Hexhaust "in.pyc" "out.bin" ellipsis_only
                (start ellipsis_only) eq_refl eq_refl eq_refl Hall eq_refl)
      as (s' & Hrun & _ & Herr & Hfs & _).
    exists s'. split; [exact Hrun|]. split; [exact Herr|].
    rewrite Hfs. apply lookup_insert_eq.
  - destruct (C8_write_stage_errors_continue_the_scan picky)
      as (_ & _ & Hlater).
    assert (Hall : Forall (fun j =>
                        loads_skips picky ellipsis_then_none j = true \/
                        dump_skips picky ellipsis_then_none j = true)
                     (seq 0 1)).
    { repeat (constructor;
        [first [left; reflexivity | right; reflexivity]|]).
      constructor. }
    destruct (Hlater "in.pyc" "out.bin" ellipsis_then_none
                (start ellipsis_then_none) 1 VNone [x4e]
                eq_refl eq_refl eq_refl (le_n 2) Hall
                eq_refl eq_refl eq_refl)
      as (s' & Hrun & _ & _ & Hfs & Hw).
    exists s'. split; [exact Hrun|]. split; [exact Hw|].
    rewrite Hfs. apply lookup_insert_eq.
  - destruct (C8_write_stage_errors_continue_the_scan toy)
      as (Hstep & _ & _).
    destruct (Hstep plain_none nul_path 0 VNone
                (Exc ValueError "embedded null byte") [1]
                (start plain_none) eq_refl eq_refl (or_introl eq_refl))
      as (s1 & Hrun & _ & _ & Hw & _ & _ & Hfs).
    exists s1. split; [exact Hrun|]. split; [exact Hw|].
    exact (Hfs eq_refl).
Defined.

Lemma C9_witness :
  exists s',
    run "in.pyc" "out.bin" (start []) = (Ok 1%Z, s') /\
    stderr s' = ["[-] Failed to extract valid code object"%string] /\
    log s' = [EvOpenRead "in.pyc"].
Proof.
  destruct (C9_empty_input_is_exhausted toy "in.pyc" "out.bin" (start [])
              eq_refl eq_refl) as (_ & s' & Hrun & _ & He & _ & Hlog).
  exists s'. repeat split; assumption.
Defined.

Lemma C10_witness :
  fst (run "in.pyc" "out.bin" (start sample)) =
  fst (run "copy.pyc" "out.bin" other_start) /\
  stdout (snd (run "in.pyc" "out.bin" (start sample))) =
  stdout (snd (run "copy.pyc" "out.bin" other_start)) /\
  fs (snd (run "in.pyc" "out.bin" (start sample))) !! "out.bin" =
  fs (snd (run "copy.pyc" "out.bin" other_start)) !! "out.bin".
Proof.
  assert (Hr2 : fs other_start !! "copy.pyc" = Some sample) by reflexivity.
  destruct (C10_extract_is_deterministic toy "out.bin" sample
              "in.pyc" "copy.pyc" (start sample) other_start
              (fst (run "in.pyc" "out.bin" (start sample)))
              (snd (run "in.pyc" "out.bin" (start sample)))
              (fst (run "copy.pyc" "out.bin" other_start))
              (snd (run "copy.pyc" "out.bin" other_start))
              eq_refl eq_refl eq_refl Hr2 eq_refl eq_refl)
    as (Hr & d & _ & _ & Ho1 & Ho2 & _ & _ & _ & _ & Hfile).
  split; [exact Hr|]. split.
  - rewrite Ho1, Ho2. reflexivity.
  - reflexivity.
Defined.

Lemma X1_witness :
  fs (snd (run "in.pyc" "out.bin" (start sample))) !! "in.pyc" =
  Some sample.
Proof.
  assert (Hp : "in.pyc" <> "out.bin") by discriminate.
  rewrite (X1_only_output_path_changes toy "in.pyc" "out.bin" (start sample)
             (fst (run "in.pyc" "out.bin" (start sample)))
             (snd (run "in.pyc" "out.bin" (start sample)))
             "in.pyc" eq_refl Hp).
  reflexivity.
Defined.

Lemma X2_witness :
  exists s',
    run "secret.pyc" "out.bin" (start sample) = (Ok 1%Z, s') /\
    stderr s' =
      ["[-] Error: [Errno 13] Permission denied: 'secret.pyc'"%string] /\
    fs s' = disk "in.pyc" sample.
Proof.
  destruct (X2_unreadable_input_is_an_error toy "secret.pyc" "out.bin"
              (start sample)
              (Exc OSError "[Errno 13] Permission denied: 'secret.pyc'")
              eq_refl)
    as (s' & Hrun & _ & He & Hfs & _).
  exists s'. repeat split; assumption.
Defined.

Lemma X3_witness :
  fst (run "in.pyc" "out.bin" (start sample)) = Ok 0%Z /\
  stdout (snd (run "in.pyc" "out.bin" (start sample))) =
    [msg_extracted 2] /\
  tried (log (snd (run "in.pyc" "out.bin" (start sample)))) = [0; 1; 2].
Proof.
  destruct (X3_success_characterised toy "in.pyc" "out.bin" sample
              (start sample)
              (fst (run "in.pyc" "out.bin" (start sample)))
              (snd (run "in.pyc" "out.bin" (start sample)))
              eq_refl eq_refl eq_refl) as [Hiff Hat].
  assert (Hk : 2 < Nat.min 32 (length sample)) by (simpl; lia).
  split.
  - apply Hiff. exists 2. repeat split. exact Hk.
  - exact (Hat 2 Hk eq_refl eq_refl).
Defined.

Lemma X4_witness :
  fst (run "in.pyc" "out.bin" (start garbage)) = Ok 1%Z /\
  stderr (snd (run "in.pyc" "out.bin" (start garbage))) = [msg_failed] /\
  tried (log (snd (run "in.pyc" "out.bin" (start garbage)))) = [0; 1; 2].
Proof.
  destruct (X4_exhaustion_characterised toy "in.pyc" "out.bin" garbage
              (start garbage)
              (fst (run "in.pyc" "out.bin" (start garbage)))
              (snd (run "in.pyc" "out.bin" (start garbage)))
              eq_refl eq_refl eq_refl) as [Hiff Hall].
  destruct (Hall eq_refl) as (Hr & _ & Ht & _).
  split; [exact Hr|]. split; [|exact Ht].
  apply Hiff. reflexivity.
Defined.

(** [padded] holds [None] at offset 32, out of reach of the scan. *)
Lemma X5_witness :
  loads_ok toy padded 32 = true /\
  fst (run "in.pyc" "out.bin" (start padded)) = Ok 1%Z /\
  exists new_tried,
    tried (log (snd (run "in.pyc" "out.bin" (start padded)))) =
      new_tried /\
    Forall (fun o => o < 32) new_tried.
Proof.
  split; [reflexivity|]. split; [reflexivity|].
  destruct (X5_offsets_stay_below_the_cap toy "in.pyc" "out.bin" padded
              (start padded)
              (fst (run "in.pyc" "out.bin" (start padded)))
              (snd (run "in.pyc" "out.bin" (start padded)))
              eq_refl eq_refl)
    as (new_tried & new_opens & Ht & _ & Hall & _).
  exists new_tried. split; [exact Ht|].
  eapply Forall_impl; [exact Hall|]. cbv beta. intros o [Ho _]. exact Ho.
Defined.

Lemma X6_witness :
  exists s',
    run "in.pyc" "/full/out" (start plain_none) = (Ok 1%Z, s') /\
    stderr s' = ["[-] Error: [Errno 28] No space left on device"%string] /\
    fs s' !! "/full/out" = Some [].
Proof.
  assert (Hk : 0 < Nat.min 32 (length plain_none)) by (simpl; lia).
  destruct (X6_failed_write_leaves_partial_output toy "in.pyc" "/full/out"
              plain_none (start plain_none) 0 VNone [x4e]
              "[Errno 28] No space left on device" []
              eq_refl eq_refl Hk eq_refl eq_refl eq_refl eq_refl eq_refl)
    as (s' & Hrun & _ & He & Hfs & _).
  exists s'. split; [exact Hrun|]. split; [exact He|].
  rewrite Hfs. apply lookup_insert_eq.
Defined.

Lemma X7_witness :
  fst (run "in.pyc" "/ro/out" (start plain_none)) = Ok 1%Z /\
  fs (snd (run "in.pyc" "/ro/out" (start plain_none))) =
    disk "in.pyc" plain_none /\
  stderr (snd (run "in.pyc" "/ro/out" (start plain_none))) =
    ["[-] Error: [Errno 13] Permission denied: '/ro/out'"%string].
Proof.
  destruct (X7_refused_output_never_succeeds toy "in.pyc" "/ro/out"
              (start plain_none)
              (fst (run "in.pyc" "/ro/out" (start plain_none)))
              (snd (run "in.pyc" "/ro/out" (start plain_none)))
              (Exc OSError "[Errno 13] Permission denied: '/ro/out'")
              eq_refl eq_refl)
    as (Hr & Hfs & _ & Hmsg).
  assert (Hk : 0 < Nat.min 32 (length plain_none)) by (simpl; lia).
  destruct (Hmsg eq_refl plain_none 0 eq_refl eq_refl Hk eq_refl eq_refl)
    as [He _].
  repeat split; assumption.
Defined.

Lemma X8_witness :
  loads_ok toy plain_none 0 = true /\
  exists s',
    run "in.pyc" nul_path (start plain_none) = (Ok 1%Z, s') /\
    stderr s' = [msg_failed] /\
    fs s' = disk "in.pyc" plain_none.
Proof.
  split; [reflexivity|].
  destruct (X8_caught_open_error_reads_as_exhaustion toy "in.pyc" nul_path
              plain_none (start plain_none)
              (Exc ValueError "embedded null byte")
              eq_refl eq_refl eq_refl eq_refl eq_refl)
    as (s' & Hrun & _ & He & Hfs & _).
  exists s'. repeat split; assumption.
Defined.

Lemma toy_dump_loads_back code data :
  toy_dumps code = Ok data -> data <> [] /\ toy_loads data = Ok code.
Proof.
  destruct code; simpl; intros H; injection H as <-;
    (split; [discriminate|reflexivity]).
Defined.

Lemma X9_witness :
  exists s2 data,
    run "out.bin" "again.bin" (snd (run "in.pyc" "out.bin" (start sample)))
      = (Ok 0%Z, s2) /\
    fs (snd (run "in.pyc" "out.bin" (start sample))) !! "out.bin" =
      Some data /\
    fs s2 !! "again.bin" = Some data.
Proof.
  destruct (X9_extracting_an_extracted_file toy "in.pyc" "out.bin"
              "again.bin" (start sample)
              (snd (run "in.pyc" "out.bin" (start sample)))
              toy_dump_loads_back eq_refl eq_refl eq_refl
              (fun _ => eq_refl))
    as (s2 & data & Hrun & _ & H1 & H2).
  exists s2, data. repeat split; assumption.
Defined.

Lemma X10_witness :
  fst (run_main ["marshal_extract.py"; "in.pyc"; "out.bin"] (start garbage))
    = Ok 1%Z /\
  exists k code data,
    toy_loads (drop k sample) = Ok code /\
    toy_dumps code = Ok data /\
    fs (snd (run_main ["marshal_extract.py"; "in.pyc"; "out.bin"]
               (start sample))) !! "out.bin" = Some data.
Proof.
  split; [reflexivity|].
  destruct (X10_main_exit_status toy
              ["marshal_extract.py"; "in.pyc"; "out.bin"] (start sample)
              (fst (run_main ["marshal_extract.py"; "in.pyc"; "out.bin"]
                      (start sample)))
              (snd (run_main ["marshal_extract.py"; "in.pyc"; "out.bin"]
                      (start sample)))
              eq_refl)
    as [(_ & _ & prog & input & output & raw & k & code & data & Hargv & Hr
         & Hl & Hd & Hfs & _)|(Hbad & _)]; [|discriminate].
  injection Hargv as _ <- <-.
  assert (Hraw : raw = sample).
  { assert (Hs : fs (start sample) !! "in.pyc" = Some sample)
      by reflexivity.
    rewrite Hs in Hr. injection Hr as <-. reflexivity. }
  subst raw.
  exists k, code, data. repeat split; assumption.
Defined.

End Examples.
